(** * CoinKiosk: annotation store, renderer, drag controller and camera easing

    A shallow embedding of [src/main.ts] (class [CoinKiosk]).

    Conventions of the embedding.
    - A JavaScript number that holds a coordinate, an opacity or a progress
      value is a real number ([R]); a number that holds an array index or a
      time stamp in milliseconds is an integer ([Z]).
    - A JavaScript string is a [string], one character per code unit.
    - A [THREE.Vector3] stored in an annotation record is an object with
      identity: the record holds a reference into [heap], because
      [onMouseMove] mutates it in place and [saveEdit] hands the same object
      back to [updateAnnotation].  Vectors that the code copies ([clone],
      [copy]) are plain values.
    - The primitives of three.js that the class calls ([normalize],
      [lookAt], [lerpVectors], ray casting) are written out from the
      library's definitions, over the reals.  The ray cast of a mouse-down
      against markers and lines is a relation between the ray and the list
      that comes back; the ray cast of a mouse-move against the proxy sphere is
      a function, on the sphere that the mesh is inscribed in.
    - The labels on screen are the elements of the overlay that the
      [CSS2DRenderer] keeps; they are part of a [Page], which holds the kiosk
      and the overlay. *)

From Stdlib Require Import Reals Lra Lia ZArith List String Ascii Bool DecimalString DecimalNat.
Import ListNotations.

Open Scope string_scope.
Open Scope list_scope.
Open Scope R_scope.

(* ------------------------------------------------------------------ *)
(** ** THREE.Vector3 *)

Module Vector3.

Record t : Type := mk { x : R; y : R; z : R }.

Definition zero : t := mk 0 0 0.

Definition add (a b : t) : t := mk (x a + x b) (y a + y b) (z a + z b).
Definition sub (a b : t) : t := mk (x a - x b) (y a - y b) (z a - z b).
Definition multiplyScalar (a : t) (s : R) : t := mk (x a * s) (y a * s) (z a * s).
Definition divideScalar (a : t) (s : R) : t := multiplyScalar a (1 / s).
Definition dot (a b : t) : R := x a * x b + y a * y b + z a * z b.
Definition lengthSq (a : t) : R := dot a a.
Definition length (a : t) : R := sqrt (lengthSq a).

Definition cross (a b : t) : t :=
  mk (y a * z b - z a * y b) (z a * x b - x a * z b) (x a * y b - y a * x b).

(** [normalize] is [divideScalar(length() || 1)]: a zero length divides by 1. *)
Definition normalize (a : t) : t :=
  divideScalar a (if Req_dec_T (length a) 0 then 1 else length a).

(** [lerpVectors(v1, v2, alpha)]: [v1 + (v2 - v1) * alpha], per coordinate. *)
Definition lerpVectors (v1 v2 : t) (alpha : R) : t :=
  mk (x v1 + (x v2 - x v1) * alpha)
     (y v1 + (y v2 - y v1) * alpha)
     (z v1 + (z v2 - z v1) * alpha).

End Vector3.

Definition Vec3 : Type := Vector3.t.

(** A rotation, kept as the three columns of the rotation matrix that
    [Matrix4.lookAt] builds (the quaternion of the object is read off it). *)
Record Rotation : Type := mkRotation { rot_x : Vec3; rot_y : Vec3; rot_z : Vec3 }.

(** [Matrix4.lookAt(eye, target, up)]. *)
Definition Matrix4_lookAt (eye target up : Vec3) : Rotation :=
  let z0 := Vector3.sub eye target in
  let z1 := if Req_dec_T (Vector3.lengthSq z0) 0
            then Vector3.mk (Vector3.x z0) (Vector3.y z0) 1 else z0 in
  let z2 := Vector3.normalize z1 in
  let x0 := Vector3.cross up z2 in
  let z3 := if Req_dec_T (Vector3.lengthSq x0) 0
            then Vector3.normalize
                   (if Req_dec_T (Rabs (Vector3.z up)) 1
                    then Vector3.mk (Vector3.x z2 + 1 / 10000) (Vector3.y z2) (Vector3.z z2)
                    else Vector3.mk (Vector3.x z2) (Vector3.y z2) (Vector3.z z2 + 1 / 10000))
            else z2 in
  let x1 := if Req_dec_T (Vector3.lengthSq x0) 0 then Vector3.cross up z3 else x0 in
  let x2 := Vector3.normalize x1 in
  mkRotation x2 (Vector3.cross z3 x2) z3.

(** [Object3D.up] of a freshly built object. *)
Definition default_up : Vec3 := Vector3.mk 0 1 0.

(** [Object3D.lookAt(target)] for an object that is neither a camera nor a
    light and has no parent: the matrix looks from [target] to the object. *)
Definition Object3D_lookAt (position target : Vec3) : Rotation :=
  Matrix4_lookAt target position default_up.

(* ------------------------------------------------------------------ *)
(** ** Scene objects *)

Inductive BufferGeometry : Type :=
| RingGeometry (innerRadius outerRadius : R) (thetaSegments : Z)
| BoxGeometry (width height depth : R)
| ConeGeometry (radius height : R) (radialSegments : Z)
| CylinderGeometry (radiusTop radiusBottom height : R) (radialSegments : Z)
| SphereGeometry (radius : R) (widthSegments heightSegments : Z)
| PointsGeometry (points : list Vec3).

Inductive Side : Type := FrontSide | BackSide | DoubleSide.

Record Material : Type := mkMaterial {
  mat_color : string;
  mat_side : Side;
  mat_transparent : bool;
  mat_opacity : R
}.

(** [userData] of an object: an absent key reads as [undefined], which is
    [false] for the flag and [None] for the index. *)
Record UserData : Type := mkUserData {
  isAnnotationMarker : bool;
  annotationIndex : option Z
}.

(** The label: a [CSS2DObject] over a [div] with a title and a description
    element.  [textContent] of the description is [None] when the record's
    description is [undefined]. *)
Record CSS2DObject : Type := mkLabel {
  label_title : string;
  label_description : option string;
  label_position : Vec3
}.

(** What [scene.children] holds: the ring markers and connecting lines that
    [renderAnnotations] builds, and everything else (lights, the coin model,
    the wireframe), of which only the [userData] matters here. *)
Inductive Object3D : Type :=
| Mesh (geometry : BufferGeometry) (material : Material) (position : Vec3)
       (rotation : Rotation) (userData : UserData) (children : list CSS2DObject)
| Line (geometry : BufferGeometry) (material : Material) (userData : UserData)
| Foreign (name : string) (userData : UserData).

Definition userData_of (o : Object3D) : UserData :=
  match o with
  | Mesh _ _ _ _ u _ => u
  | Line _ _ u => u
  | Foreign _ u => u
  end.

Definition children_of (o : Object3D) : list CSS2DObject :=
  match o with
  | Mesh _ _ _ _ _ c => c
  | _ => []
  end.

(* ------------------------------------------------------------------ *)
(** ** The annotation record and the state of the kiosk *)

(** A reference to a [THREE.Vector3] object in the heap. *)
Definition ref : Type := nat.

(** A record of [this.annotations].  [description] is [None] when the field
    holds [undefined].  The two optional handles of the source record, [mesh]
    and [marker], always point at the marker and the label that the last
    re-render built for the record; the model keeps those in the scene and
    not a second time in the record. *)
Record Annotation : Type := mkAnnotation {
  position : ref;
  label : string;
  description : option string;
  color : string;
  shape : string
}.

(** One [animate] closure of [animateCameraTo] that is still scheduled. *)
Record CameraAnimation : Type := mkAnimation {
  startPosition : Vec3;
  startTarget : Vec3;
  anim_position : Vec3;
  anim_lookAt : Vec3;
  startTime : Z
}.

(** The fields of [CoinKiosk] that the annotation code reads or writes,
    with the vector objects the records point to ([heap], and [next_ref], the
    first reference not yet handed out by [new THREE.Vector3]). *)
Record State : Type := mkState {
  heap : ref -> Vec3;
  next_ref : ref;
  annotations : list Annotation;
  scene_children : list Object3D;
  camera_position : Vec3;
  controls_target : Vec3;
  controls_enabled : bool;
  currentEditIndex : option Z;
  isDragging : bool;
  draggedAnnotationIndex : option Z;
  modal_visible : bool;
  animations : list CameraAnimation
}.

(** Functional record updates. *)
Definition set_heap (h : ref -> Vec3) (s : State) : State :=
  mkState h (next_ref s) (annotations s) (scene_children s) (camera_position s)
          (controls_target s) (controls_enabled s) (currentEditIndex s)
          (isDragging s) (draggedAnnotationIndex s) (modal_visible s) (animations s).

Definition set_next_ref (n : ref) (s : State) : State :=
  mkState (heap s) n (annotations s) (scene_children s) (camera_position s)
          (controls_target s) (controls_enabled s) (currentEditIndex s)
          (isDragging s) (draggedAnnotationIndex s) (modal_visible s) (animations s).

Definition set_annotations (l : list Annotation) (s : State) : State :=
  mkState (heap s) (next_ref s) l (scene_children s) (camera_position s)
          (controls_target s) (controls_enabled s) (currentEditIndex s)
          (isDragging s) (draggedAnnotationIndex s) (modal_visible s) (animations s).

Definition set_scene_children (c : list Object3D) (s : State) : State :=
  mkState (heap s) (next_ref s) (annotations s) c (camera_position s)
          (controls_target s) (controls_enabled s) (currentEditIndex s)
          (isDragging s) (draggedAnnotationIndex s) (modal_visible s) (animations s).

Definition set_camera (p t : Vec3) (s : State) : State :=
  mkState (heap s) (next_ref s) (annotations s) (scene_children s) p
          t (controls_enabled s) (currentEditIndex s)
          (isDragging s) (draggedAnnotationIndex s) (modal_visible s) (animations s).

Definition set_controls_enabled (b : bool) (s : State) : State :=
  mkState (heap s) (next_ref s) (annotations s) (scene_children s) (camera_position s)
          (controls_target s) b (currentEditIndex s)
          (isDragging s) (draggedAnnotationIndex s) (modal_visible s) (animations s).

Definition set_edit (e : option Z) (m : bool) (s : State) : State :=
  mkState (heap s) (next_ref s) (annotations s) (scene_children s) (camera_position s)
          (controls_target s) (controls_enabled s) e
          (isDragging s) (draggedAnnotationIndex s) m (animations s).

Definition set_drag (d : bool) (i : option Z) (s : State) : State :=
  mkState (heap s) (next_ref s) (annotations s) (scene_children s) (camera_position s)
          (controls_target s) (controls_enabled s) (currentEditIndex s)
          d i (modal_visible s) (animations s).

Definition set_animations (a : list CameraAnimation) (s : State) : State :=
  mkState (heap s) (next_ref s) (annotations s) (scene_children s) (camera_position s)
          (controls_target s) (controls_enabled s) (currentEditIndex s)
          (isDragging s) (draggedAnnotationIndex s) (modal_visible s) a.

(** [a[i]] on a JavaScript array, for an integer [i]: [undefined] out of range. *)
Definition js_get {A : Type} (l : list A) (i : Z) : option A :=
  if (i <? 0)%Z then None else nth_error l (Z.to_nat i).

(** In-place write of a field of [a[i]]. *)
Fixpoint list_set {A : Type} (l : list A) (n : nat) (f : A -> A) : list A :=
  match l, n with
  | [], _ => []
  | a :: t, O => f a :: t
  | a :: t, S k => a :: list_set t k f
  end.

(** [a.splice(start, 1)] for an integer [start]: a negative [start] counts
    from the end (clamped at 0), a [start] past the end removes nothing. *)
Definition splice1 {A : Type} (l : list A) (start : Z) : list A :=
  let len := Z.of_nat (List.length l) in
  let actualStart :=
    if (start <? 0)%Z then Z.max (len + start) 0 else Z.min start len in
  firstn (Z.to_nat actualStart) l ++ skipn (S (Z.to_nat actualStart)) l.

(** In-place [v.copy(w)] on the vector object at [r]. *)
Definition heap_copy (h : ref -> Vec3) (r : ref) (w : Vec3) : ref -> Vec3 :=
  fun r' => if Nat.eqb r' r then w else h r'.

(* ------------------------------------------------------------------ *)
(** ** Annotation renderer *)

(** The test of the [filter] in [renderAnnotations]:
    [child.userData && child.userData.isAnnotationMarker]. *)
Definition tagged (o : Object3D) : bool := isAnnotationMarker (userData_of o).

(** The label anchor: [position.clone().normalize().multiplyScalar(2.5)]. *)
Definition labelOffset (p : Vec3) : Vec3 :=
  Vector3.multiplyScalar (Vector3.normalize p) (5 / 2).

(** The marker of one record, with its label attached as a child. *)
Definition make_marker (cam : Vec3) (h : ref -> Vec3) (index : Z) (a : Annotation)
  : Object3D :=
  let p := h (position a) in
  Mesh (RingGeometry (3 / 100) (4 / 100) 32)
       (mkMaterial (color a) DoubleSide true (9 / 10))
       p
       (Object3D_lookAt p cam)
       (mkUserData true (Some index))
       [mkLabel (label a) (description a) (labelOffset p)].

(** The connecting line of one record. *)
Definition make_line (h : ref -> Vec3) (a : Annotation) : Object3D :=
  let p := h (position a) in
  Line (PointsGeometry [p; labelOffset p])
       (mkMaterial (color a) FrontSide true (4 / 10))
       (mkUserData true None).

(** The body of [annotations.forEach((annotation, index) => ...)]: what the
    loop adds to the scene, in order. *)
Fixpoint annotation_visuals (cam : Vec3) (h : ref -> Vec3) (index : Z)
         (l : list Annotation) : list Object3D :=
  match l with
  | [] => []
  | a :: rest =>
      make_marker cam h index a :: make_line h a
        :: annotation_visuals cam h (index + 1) rest
  end.

(** [renderAnnotations]: drop every tagged child, then rebuild.  (The list
    in the side panel, [updateAnnotationList], is DOM text only and is left
    out of the state.) *)
Definition renderAnnotations (s : State) : State :=
  set_scene_children
    (filter (fun child => negb (tagged child)) (scene_children s)
       ++ annotation_visuals (camera_position s) (heap s) 0 (annotations s))
    s.

(** [getMarkerGeometry]. *)
Definition getMarkerGeometry (shape : string) : BufferGeometry :=
  let size := 5 / 100 in
  if String.eqb shape "cube" then BoxGeometry (size * 2) (size * 2) (size * 2)
  else if String.eqb shape "cone" then ConeGeometry size (size * 2) 16
  else if String.eqb shape "cylinder" then CylinderGeometry size size (size * 2) 16
  else SphereGeometry size 16 16.

(* ------------------------------------------------------------------ *)
(** ** Annotation store *)

Definition addAnnotation (label : string) (position : ref) (color shape : string)
           (description : string) (s : State) : State :=
  renderAnnotations
    (set_annotations
       (annotations s ++ [mkAnnotation position label (Some description) color shape]) s).

(** [updateAnnotation]: guarded by [if (this.annotations[index])].  The
    description is [None] when the caller leaves the argument out. *)
Definition updateAnnotation (index : Z) (label : string) (position : ref)
           (color shape : string) (description : option string) (s : State) : State :=
  match js_get (annotations s) index with
  | Some _ =>
      renderAnnotations
        (set_annotations
           (list_set (annotations s) (Z.to_nat index)
              (fun _ => mkAnnotation position label description color shape)) s)
  | None => s
  end.

(** [deleteAnnotation]: [splice(index, 1)], no guard. *)
Definition deleteAnnotation (index : Z) (s : State) : State :=
  renderAnnotations (set_annotations (splice1 (annotations s) index) s).

(* ------------------------------------------------------------------ *)
(** ** The state after the constructor *)

Definition untagged : UserData := mkUserData false None.

(** [setupLighting]. *)
Definition lights : list Object3D :=
  [ Foreign "AmbientLight" untagged; Foreign "DirectionalLight" untagged;
    Foreign "DirectionalLight" untagged; Foreign "DirectionalLight" untagged ].

Definition default_color : string := "#8b7ba8".

(** [setupAnnotations]: the one record the kiosk starts with; its position
    vector is the object at reference 0. *)
Definition initial_annotation : Annotation :=
  mkAnnotation 0%nat "Imperial Inscription"
    (Some "The Latin inscription names the emperor and asserts his authority, functioning as both identification and propaganda.")
    default_color "sphere".

Definition initial_heap : ref -> Vec3 :=
  heap_copy (fun _ => Vector3.zero) 0%nat (Vector3.mk (9 / 10) (5 / 100) (2 / 10)).

Definition initial : State :=
  renderAnnotations
    (mkState initial_heap 1%nat [initial_annotation] lights
             (Vector3.mk 5 3 5) Vector3.zero true None false None false []).

(** A sequence of store operations, each with its re-render. *)
Inductive StoreOp : Type :=
| OpAdd (label : string) (position : ref) (color shape description : string)
| OpUpdate (index : Z) (label : string) (position : ref) (color shape : string)
           (description : option string)
| OpDelete (index : Z).

Definition apply_op (s : State) (op : StoreOp) : State :=
  match op with
  | OpAdd l p c sh d => addAnnotation l p c sh d s
  | OpUpdate i l p c sh d => updateAnnotation i l p c sh d s
  | OpDelete i => deleteAnnotation i s
  end.

Definition run_ops (ops : list StoreOp) (s : State) : State :=
  fold_left apply_op ops s.

(** What the counting properties count in the scene graph: ring markers
    (tagged meshes that carry an annotation index) and the [CSS2DObject]s
    below them.  The label elements on screen are those of the overlay, in
    [Page] below. *)
Definition is_marker (o : Object3D) : bool :=
  match o with
  | Mesh _ _ _ _ u _ =>
      isAnnotationMarker u && match annotationIndex u with Some _ => true | None => false end
  | _ => false
  end.

Definition markers (s : State) : list Object3D := filter is_marker (scene_children s).

Definition labels (s : State) : list CSS2DObject :=
  flat_map children_of (scene_children s).

Definition annotation_visuals_of (s : State) : list Object3D :=
  filter tagged (scene_children s).

Definition marker_geometry (o : Object3D) : option BufferGeometry :=
  match o with
  | Mesh g _ _ _ _ _ => Some g
  | _ => None
  end.

(* ------------------------------------------------------------------ *)
(** ** Interaction controller *)

(** A handler either runs to its end or stops at an uncaught [TypeError]
    (a property read on [undefined]); the state written so far stays. *)
Inductive Outcome : Type :=
| Done (s : State)
| Thrown (s : State).

Definition state_of (o : Outcome) : State :=
  match o with Done s => s | Thrown s => s end.

(** [String.prototype.trim] on code units below 256: the white space and
    line terminators there are 9 to 13, 32 and 160. *)
Definition is_white_space (c : ascii) : bool :=
  let n := nat_of_ascii c in
  ((9 <=? n)%nat && (n <=? 13)%nat) || (n =? 32)%nat || (n =? 160)%nat.

Fixpoint trimStart_list (l : list ascii) : list ascii :=
  match l with
  | [] => []
  | c :: rest => if is_white_space c then trimStart_list rest else l
  end.

Definition trim (s : string) : string :=
  string_of_list_ascii
    (rev (trimStart_list (rev (trimStart_list (list_ascii_of_string s))))).

Definition string_of_nat (n : nat) : string :=
  NilZero.string_of_uint (Nat.to_uint n).

(** The fields of the edit modal at the time Save is clicked. *)
Record Form : Type := mkForm {
  edit_label : string;
  edit_color : string;
  edit_shape : string
}.

(** [closeEditModal]. *)
Definition closeEditModal (s : State) : State := set_edit None false s.

(** [openEditModal]: the index is stored before the record is read, and
    reading [annotation.label] throws when there is no such record. *)
Definition openEditModal (index : Z) (s : State) : Outcome :=
  match js_get (annotations s) index with
  | Some _ => Done (set_edit (Some index) true s)
  | None => Thrown (set_edit (Some index) (modal_visible s) s)
  end.

(** [addNewAnnotation]: a fresh vector, a numbered label, then the editor. *)
Definition addNewAnnotation (s : State) : Outcome :=
  let r := next_ref s in
  let s1 := set_next_ref (S r)
              (set_heap (heap_copy (heap s) r (Vector3.mk 0 (2 / 10) 1)) s) in
  let label := String.append "Annotation "
                 (string_of_nat (List.length (annotations s) + 1)%nat) in
  let s2 := addAnnotation label r default_color "sphere"
              "Add your annotation description here." s1 in
  openEditModal (Z.of_nat (List.length (annotations s2)) - 1) s2.

(** [saveEdit]: [updateAnnotation] is called with five arguments, so its
    [description] parameter is [undefined]. *)
Definition saveEdit (form : Form) (s : State) : Outcome :=
  match currentEditIndex s with
  | None => Done s
  | Some i =>
      match js_get (annotations s) i with
      | None => Thrown s
      | Some a =>
          Done (closeEditModal
                  (updateAnnotation i (trim (edit_label form)) (position a)
                     (edit_color form) (edit_shape form) None s))
      end
  end.

(** [onMouseDown].  [intersects] is what
    [raycaster.intersectObjects(scene.children.filter(tagged))] returned for
    the cursor, nearest first. *)
Definition onMouseDown (intersects : list Object3D) (s : State) : State :=
  match currentEditIndex s with
  | None => s
  | Some e =>
      match intersects with
      | [] => s
      | obj :: _ =>
          match annotationIndex (userData_of obj) with
          | Some k =>
              if (k =? e)%Z
              then set_controls_enabled false (set_drag true (Some e) s)
              else s
          | None => s
          end
      end
  end.

(** The ray that [raycaster.setFromCamera(mouse, camera)] casts for the
    cursor; three.js keeps [direction] normalised. *)
Record Ray : Type := mkRay { origin : Vec3; direction : Vec3 }.

(** [Ray.at(t)]. *)
Definition Ray_at (ray : Ray) (t : R) : Vec3 :=
  Vector3.add (Vector3.multiplyScalar (direction ray) t) (origin ray).

(** [new THREE.SphereGeometry(1.5, 32, 32)]. *)
Definition proxy_radius : R := 3 / 2.

(** [raycaster.intersectObject(sphere)] for a mesh of a sphere of the given
    radius at the origin of the scene.  The mesh has the default front-sided
    material, so only the point where the ray enters is reported, and nothing
    when the ray starts inside or points away.  The mesh is a polyhedron of
    32 by 32 segments inscribed in the sphere; the function below casts
    against the sphere itself, so the point it gives can be off the point on
    the facet by up to the sagitta of a facet, and a ray that only grazes the
    sphere, outside the polyhedron, is reported here and not by the mesh.  The
    properties take the reported point as it comes, and use of the geometry
    only what the mesh and the sphere agree on: a ray with no point on the
    sphere and a ray that starts well inside report nothing, a ray from
    outside through the middle of the sphere reports a point. *)
Definition intersectObject (ray : Ray) (radius : R) : list Vec3 :=
  let v := Vector3.sub Vector3.zero (origin ray) in
  let tca := Vector3.dot v (direction ray) in
  let d2 := Vector3.dot v v - tca * tca in
  let radius2 := radius * radius in
  if Rlt_dec d2 radius2 then
    let thc := sqrt (radius2 - d2) in
    let t0 := tca - thc in
    if Rle_dec 0 t0 then [Ray_at ray t0] else []
  else [].

(** [onMouseMove].  The write to [annotation.mesh.position] lands on the
    marker of the previous render, which the re-render that follows drops
    from the scene. *)
Definition onMouseMove (ray : Ray) (s : State) : Outcome :=
  if negb (isDragging s) then Done s else
  match draggedAnnotationIndex s with
  | None => Done s
  | Some i =>
      match intersectObject ray proxy_radius with
      | [] => Done s
      | newPosition :: _ =>
          match js_get (annotations s) i with
          | None => Thrown s
          | Some a =>
              Done (renderAnnotations
                      (set_heap (heap_copy (heap s) (position a) newPosition) s))
          end
      end
  end.

(** [onMouseUp]. *)
Definition onMouseUp (s : State) : State :=
  if isDragging s then set_controls_enabled true (set_drag false None s) else s.

(* ------------------------------------------------------------------ *)
(** ** Camera animator *)

(** The easing of [animateCameraTo]. *)
Definition eased (progress : R) : R :=
  if Rlt_dec progress (1 / 2)
  then 2 * progress * progress
  else -1 + (4 - 2 * progress) * progress.

Definition duration : R := 1000.

(** [Math.min(elapsed / duration, 1)] at the clock reading [now]. *)
Definition progress_at (a : CameraAnimation) (now : Z) : R :=
  Rmin (IZR (now - startTime a) / duration) 1.

(** One run of the [animate] closure: the two [lerpVectors] writes, and
    whether the closure asks for another frame.  The call of
    [controls.update()] that follows the writes is OrbitControls' own and is
    not part of this function: it can move the camera again (damping, and the
    clamp of the distance to the target into [minDistance, maxDistance]).  At
    the start and at the end of a focus animation it leaves the camera where
    the writes put it, the distance to the target being within the limits
    there. *)
Definition animate (a : CameraAnimation) (now : Z) (s : State) : State * bool :=
  let progress := progress_at a now in
  (set_camera
     (Vector3.lerpVectors (startPosition a) (anim_position a) (eased progress))
     (Vector3.lerpVectors (startTarget a) (anim_lookAt a) (eased progress)) s,
   if Rlt_dec progress 1 then true else false).

(** [animateCameraTo]: [startTime] is the first clock reading, [now] the one
    taken by the first, synchronous run of [animate]. *)
Definition animateCameraTo (position lookAt : Vec3) (startTime now : Z) (s : State)
  : State :=
  let a := mkAnimation (camera_position s) (controls_target s) position lookAt startTime in
  let (s1, again) := animate a now s in
  if again then set_animations (animations s1 ++ [a]) s1 else s1.

Definition focus_offset : Vec3 := Vector3.mk 2 (3 / 2) 2.

(** [focusOnAnnotation]. *)
Definition focusOnAnnotation (index : Z) (startTime now : Z) (s : State) : State :=
  if ((0 <=? index)%Z && (index <? Z.of_nat (List.length (annotations s)))%Z)%bool then
    match js_get (annotations s) index with
    | Some annotation =>
        let targetPosition := heap s (position annotation) in
        let cameraTarget := Vector3.add targetPosition focus_offset in
        animateCameraTo cameraTarget targetPosition startTime now s
    | None => s
    end
  else s.

(** One display frame: every scheduled [animate] closure runs, in the order
    the closures were scheduled; a closure stays scheduled while its progress
    is below 1. *)
Fixpoint run_frame (now : Z) (pending : list CameraAnimation) (s : State)
  : State * list CameraAnimation :=
  match pending with
  | [] => (s, [])
  | a :: rest =>
      let (s1, again) := animate a now s in
      let (s2, kept) := run_frame now rest s1 in
      (s2, if again then a :: kept else kept)
  end.

Definition onAnimationFrame (now : Z) (s : State) : State :=
  let (s1, kept) := run_frame now (animations s) s in
  set_animations kept s1.

(* ------------------------------------------------------------------ *)
(** ** The kiosk as an event-driven system *)

(** What can happen to a running kiosk: the listeners that
    [setupEventListeners] and [openEditModal] register, a display frame, a
    camera change made by OrbitControls, the model finishing to load, and
    [deleteAnnotation], which no control of this file calls but which the
    store offers. *)
Inductive Event : Type :=
| ClickAddAnnotation
| ClickSave (form : Form)
| ClickCancel
| MouseDown (intersects : list Object3D)
| MouseMove (ray : Ray)
| MouseUp
| ClickListItem (index : Z) (startTime now : Z)
| AnimationFrame (now : Z)
| Orbit (position target : Vec3)
| LockToggle (checked : bool)
| ModelLoaded (name : string)
| CallDelete (index : Z).

Definition step (s : State) (e : Event) : State :=
  match e with
  | ClickAddAnnotation => state_of (addNewAnnotation s)
  | ClickSave form => state_of (saveEdit form s)
  | ClickCancel => closeEditModal s
  | MouseDown intersects => onMouseDown intersects s
  | MouseMove ray => state_of (onMouseMove ray s)
  | MouseUp => onMouseUp s
  | ClickListItem index t0 t1 => focusOnAnnotation index t0 t1 s
  | AnimationFrame now => onAnimationFrame now s
  | Orbit p t => set_camera p t s
  | LockToggle checked => set_controls_enabled (negb checked) s
  | ModelLoaded name => set_scene_children (scene_children s ++ [Foreign name untagged]) s
  | CallDelete index => deleteAnnotation index s
  end.

(** *** The ray cast of a mouse-down

    [raycaster.intersectObjects(candidates)] is three.js' own.  What the
    controller relies on is written out as a relation between the ray, the
    candidates and the list that comes back. *)

(** [raycaster.params.Line.threshold], which the class leaves at its
    default. *)
Definition line_threshold : R := 1.

(** The point at [w] of the segment from [a] to [b], for [w] from 0 to 1. *)
Definition segment_at (a b : Vec3) (w : R) : Vec3 := Vector3.lerpVectors a b w.

(** The square of the distance between the point at [t] on the ray and the
    point at [w] on the segment. *)
Definition gapSq (ray : Ray) (a b : Vec3) (t w : R) : R :=
  Vector3.lengthSq (Vector3.sub (Ray_at ray t) (segment_at a b w)).

(** [Ray.distanceSqToSegment]: a point of the ray and a point of the segment
    that are nearest to each other. *)
Definition closest (ray : Ray) (a b : Vec3) (t w : R) : Prop :=
  0 <= t /\ 0 <= w <= 1 /\
  forall t' w', 0 <= t' -> 0 <= w' <= 1 -> gapSq ray a b t w <= gapSq ray a b t' w'.

(** What the ray cast can report for one annotation visual, and at which
    distance from the origin of the ray (the direction is of unit length).
    - A marker ([Mesh.raycast], double-sided material): the ray crosses the
      plane of the ring, which passes through the marker's position across
      its z axis, at a point of the ring mesh.  The triangles of
      [RingGeometry(inner, outer, n)] lie between the circle inscribed in the
      inner polygon and the outer circle; every crossing point there is
      admitted, so the relation reports whenever the mesh does.
    - A connecting line ([Line.raycast]): the ray comes within the threshold
      of the segment; the distance reported is that of the point of the ray
      nearest to the segment. *)
Inductive reports (ray : Ray) : Object3D -> R -> Prop :=
| reports_ring (innerRadius outerRadius : R) (thetaSegments : Z) (m : Material)
               (p : Vec3) (r : Rotation) (u : UserData) (c : list CSS2DObject) (t : R) :
    0 <= t ->
    Vector3.dot (direction ray) (rot_z r) <> 0 ->
    Vector3.dot (Vector3.sub (Ray_at ray t) p) (rot_z r) = 0 ->
    Rsqr (innerRadius * cos (PI / IZR thetaSegments))
    <= Vector3.lengthSq (Vector3.sub (Ray_at ray t) p) ->
    Vector3.lengthSq (Vector3.sub (Ray_at ray t) p) <= Rsqr outerRadius ->
    reports ray (Mesh (RingGeometry innerRadius outerRadius thetaSegments) m p r u c) t
| reports_line (a b : Vec3) (m : Material) (u : UserData) (t w : R) :
    closest ray a b t w ->
    gapSq ray a b t w <= line_threshold * line_threshold ->
    reports ray (Line (PointsGeometry [a; b]) m u) t.

Definition is_line (o : Object3D) : bool :=
  match o with
  | Line _ _ _ => true
  | _ => false
  end.

Fixpoint ascending (l : list R) : Prop :=
  match l with
  | a :: (b :: _) as rest => a <= b /\ ascending rest
  | _ => True
  end.

(** [intersectObjects]: every object of the result is a candidate that the
    ray cast reports, the result is sorted by distance, nearest first, and no
    connecting line that the ray comes within the threshold of is left
    out. *)
Definition ray_cast (ray : Ray) (candidates intersects : list Object3D) : Prop :=
  exists distances,
    Forall2 (reports ray) intersects distances /\
    ascending distances /\
    Forall (fun o => In o candidates) intersects /\
    forall o t, In o candidates -> is_line o = true -> reports ray o t -> In o intersects.

(** An event the kiosk can receive in state [s].  The list of a mouse-down
    is the result of casting a ray from the camera against the tagged children
    of the scene. *)
Definition receivable (s : State) (e : Event) : Prop :=
  match e with
  | MouseDown intersects =>
      exists ray,
        origin ray = camera_position s /\
        Vector3.lengthSq (direction ray) = 1 /\
        ray_cast ray (annotation_visuals_of s) intersects
  | _ => True
  end.

Inductive reachable : State -> Prop :=
| reachable_initial : reachable initial
| reachable_step : forall s e, reachable s -> receivable s e -> reachable (step s e).

Definition run_events (events : list Event) (s : State) : State :=
  fold_left step events s.

(** Every run of receivable events, one after the other. *)
Fixpoint receivable_run (s : State) (events : list Event) : Prop :=
  match events with
  | [] => True
  | e :: rest => receivable s e /\ receivable_run (step s e) rest
  end.

(** No two records share their position vector, and every position vector
    has been allocated. *)
Definition positions_separate (s : State) : Prop :=
  NoDup (map position (annotations s)) /\
  Forall (fun r => (r < next_ref s)%nat) (map position (annotations s)).

(** The values a re-render reads from the array: each record with its
    position vector looked up. *)
Definition annotation_values (s : State)
  : list (Vec3 * string * option string * string * string) :=
  map (fun a => (heap s (position a), label a, description a, color a, shape a))
      (annotations s).

(** A visual with the orientation of its marker forgotten. *)
Definition forget_rotation (o : Object3D) : Object3D :=
  match o with
  | Mesh g m p _ u c => Mesh g m p (mkRotation Vector3.zero Vector3.zero Vector3.zero) u c
  | _ => o
  end.

(** Only markers carry labels: every child of the scene that is not an
    annotation visual has no label below it. *)
Definition labels_on_markers_only (s : State) : Prop :=
  Forall (fun o => tagged o = false -> children_of o = []) (scene_children s).

(* ------------------------------------------------------------------ *)
(** ** Predicates and scenarios used by the properties *)

(** What holds after each operation of the store: as many markers and as
    many labels as records, and no label outside a marker. *)
Definition counts_agree (s : State) : Prop :=
  List.length (markers s) = List.length (annotations s) /\
  List.length (labels s) = List.length (annotations s) /\
  labels_on_markers_only s.

(** The scenario of the specification: the first record gets the label
    Gate and the shape cube. *)
Definition gate_cube : State :=
  updateAnnotation 0 "Gate" 0%nat default_color "cube" (description initial_annotation)
                   initial.

(** Store operations on the kiosk as it starts: a record is added (on the
    vector of the first record), edited (at its index and at an index past
    the end), and the first record is deleted. *)
Definition add_edit_delete : list StoreOp :=
  [ OpAdd "Arch" 0%nat default_color "sphere" "Triumphal arch";
    OpUpdate 1 "Gate" 0%nat default_color "cube" (Some "City gate");
    OpUpdate 2 "Nowhere" 0%nat default_color "cone" None;
    OpDelete 0 ].

(** Two states of the kiosk that differ in the camera only: the user has
    orbited to the front of the first marker, or to its side. *)
Definition orbit_front : State :=
  step initial (Orbit (Vector3.mk (9 / 10) (5 / 100) (12 / 10)) Vector3.zero).

Definition orbit_side : State :=
  step initial (Orbit (Vector3.mk (19 / 10) (5 / 100) (2 / 10)) Vector3.zero).

(** The kiosk after one click on the add button: the editor is open on the
    new, second record. *)
Definition editing_new : State := step initial ClickAddAnnotation.

(** The drag scenarios.  With the editor open on the new record, the user
    orbits and pans to the far side of the coin, so that the connecting line
    of the new marker runs away from the camera, and presses the mouse button
    on the ring of the new marker.  [cursor_direction] is the direction of the
    ray under the cursor, [ring_point] the point of the ring that it meets
    (0.0344 from the centre of the ring, in the plane of the ring), and
    [camera_at D] the position of the camera, [D] units before that point. *)
Definition cursor_direction : Vec3 := Vector3.mk (3 / 5) 0 (4 / 5).

Definition ring_point : Vec3 := Vector3.mk (-21 / 1250) (23 / 100) 1.

Definition camera_at (D : R) : Vec3 :=
  Vector3.sub ring_point (Vector3.multiplyScalar cursor_direction D).

Definition cursor_ray (D : R) : Ray := mkRay (camera_at D) cursor_direction.

(** The orbit: the camera looks along the ray, at a target 4 units ahead. *)
Definition facing_new (D : R) : State :=
  step editing_new
       (Orbit (camera_at D)
              (Vector3.add (camera_at D) (Vector3.multiplyScalar cursor_direction 4))).

(** What the ray under the cursor hits: the marker of the second record,
    and then its connecting line. *)
Definition under_cursor (s : State) : list Object3D := skipn 2 (annotation_visuals_of s).

Definition pressed (D : R) : State :=
  step (facing_new D) (MouseDown (under_cursor (facing_new D))).

(** The camera 5 units before the ring, at (-3.0168, 0.23, -3): outside the
    proxy sphere. *)
Definition dragging_new : State := pressed 5.

(** ... and then the Cancel button of the editor, with no mouse-up on the
    canvas in between (the button is released elsewhere, or Cancel is
    pressed from the keyboard). *)
Definition drag_abandoned : State := step dragging_new ClickCancel.


(** The events of the abandoned drag, from the start of the kiosk. *)
Definition abandoned_drag : list Event :=
  [ ClickAddAnnotation;
    Orbit (camera_at 5)
          (Vector3.add (camera_at 5) (Vector3.multiplyScalar cursor_direction 4));
    MouseDown (under_cursor (facing_new 5));
    ClickCancel ].

(** A ray from the camera of the kiosk as it starts, through the coin. *)
Definition ray_from_front : Ray :=
  mkRay (Vector3.mk 5 3 5) (Vector3.mk (-2 / 3) (-1 / 3) (-2 / 3)).

(* ------------------------------------------------------------------ *)
(** ** The side panel and the toggles *)

(** The value of a digit of [parseInt] in the given radix. *)
Definition digit_value (radix : Z) (c : ascii) : option Z :=
  let n := Z.of_nat (nat_of_ascii c) in
  let v := if ((48 <=? n) && (n <=? 57))%Z then Some (n - 48)%Z
           else if ((97 <=? n) && (n <=? 122))%Z then Some (n - 87)%Z
           else if ((65 <=? n) && (n <=? 90))%Z then Some (n - 55)%Z
           else None in
  match v with
  | Some d => if (d <? radix)%Z then Some d else None
  | None => None
  end.

(** The digits of [parseInt]: read while they are digits of the radix;
    [None] (NaN) when there is not even one. *)
Fixpoint parse_digits (radix acc : Z) (seen : bool) (l : list ascii) : option Z :=
  match l with
  | [] => if seen then Some acc else None
  | c :: rest =>
      match digit_value radix c with
      | Some d => parse_digits radix (acc * radix + d) true rest
      | None => if seen then Some acc else None
      end
  end.

(** [parseInt(text)] with no radix: leading white space, a sign, a
    hexadecimal prefix, then the digits; [None] is NaN. *)
Definition parseInt (text : string) : option Z :=
  let l := trimStart_list (list_ascii_of_string text) in
  let signed :=
    match l with
    | "-"%char :: r => ((-1)%Z, r)
    | "+"%char :: r => (1%Z, r)
    | _ => (1%Z, l)
    end in
  let based :=
    match snd signed with
    | "0"%char :: "x"%char :: r => (16%Z, r)
    | "0"%char :: "X"%char :: r => (16%Z, r)
    | _ => (10%Z, snd signed)
    end in
  option_map (Z.mul (fst signed)) (parse_digits (fst based) 0 false (snd based)).

(** The click listener of the list, for a click on an item or on its text:
    [parseInt(li?.dataset.index || '0')], then [focusOnAnnotation].
    [dataIndex] is [None] when there is no [li] or no attribute; NaN fails
    both comparisons of [focusOnAnnotation]. *)
Definition onListClick (dataIndex : option string) (startTime now : Z) (s : State)
  : State :=
  let text := match dataIndex with
              | None => "0"
              | Some EmptyString => "0"
              | Some t => t
              end in
  match parseInt text with
  | Some index => focusOnAnnotation index startTime now s
  | None => s
  end.

(** A click on Save runs every listener that the calls of [openEditModal]
    have added so far ([removeEventListener] is given a function that was
    never added, so it removes none); an exception in one listener does not
    stop the next. *)
Definition clickSave (listeners : nat) (form : Form) (s : State) : State :=
  Nat.iter listeners (fun st => state_of (saveEdit form st)) s.

(** The colours of the coin: the gold of the material, and the two that the
    solid-colour toggle writes. *)
Definition gold : Z := 0xFFD700.
Definition solid_grey : Z := 0xcccccc.
Definition solid_brown : Z := 0x8b7355.

(** The change listener of the solid-colour box, on the colour of
    [this.mesh] ([None] while there is no mesh; once there is one, its
    material is the [MeshStandardMaterial] that the loader or the fallback
    gave it, in [gold]). *)
Definition onSolidColorChange (meshColor : option Z) (checked : bool) : option Z :=
  match meshColor with
  | Some _ => Some (if checked then solid_grey else solid_brown)
  | None => None
  end.

(** ** Predicates of the further properties *)

(** The annotation visuals in the scene are the ones of the array as it is
    now, built for some position of the camera. *)
Definition scene_shows_array (s : State) : Prop :=
  exists cam,
    annotation_visuals_of s = annotation_visuals cam (heap s) 0 (annotations s).

(** The flags of the controller agree with each other. *)
Definition flags_agree (s : State) : Prop :=
  (isDragging s = true <-> draggedAnnotationIndex s <> None) /\
  (modal_visible s = true <-> currentEditIndex s <> None) /\
  (forall e, currentEditIndex s = Some e -> (0 <= e)%Z) /\
  (forall i, draggedAnnotationIndex s = Some i -> (0 <= i)%Z).

(** A string with no white space at either end. *)
Definition trimmed (text : string) : Prop :=
  let l := list_ascii_of_string text in
  (forall c rest, l = c :: rest -> is_white_space c = false) /\
  (forall c rest, rev l = c :: rest -> is_white_space c = false).

(** A ray from the camera of [dragging_new] that points away from the
    coin. *)
Definition ray_away : Ray := mkRay (camera_at 5) (Vector3.mk (-3 / 5) 0 (-4 / 5)).

(** The kiosk when the model finishes loading while the new record is being
    dragged. *)
Definition busy_kiosk : State := step dragging_new (ModelLoaded "coin").

(* ------------------------------------------------------------------ *)
(** ** The label overlay

    The labels on screen are the [div] elements that the [CSS2DRenderer]
    holds as children of its [domElement].  [labelRenderer.render], which the
    animation loop calls on every frame, appends the element of each
    [CSS2DObject] that it finds in the scene graph and that is not yet a child
    of the overlay.  An element leaves the overlay only in the listener that
    its [CSS2DObject] has for the [removed] event, which [Object3D.remove]
    dispatches.  [renderAnnotations] drops the old markers, and their labels
    with them, by assigning [scene.children]: no event is dispatched. *)

(** A [div] element, told from the others by the order of creation. *)
Definition Element : Type := nat.

(** The kiosk together with the label elements: those of the [CSS2DObject]s
    below the markers of the scene, in the order of the markers; the number
    of label elements created so far; and the children of the overlay. *)
Record Page : Type := mkPage {
  kiosk : State;
  label_elements : list Element;
  created : nat;
  overlay : list Element
}.

(** [renderAnnotations] on the page, with [k] the kiosk as the call finds it:
    the scene is rebuilt as before and one new [labelDiv] is created for each
    record; the overlay is not touched. *)
Definition page_render (k : State) (p : Page) : Page :=
  mkPage (renderAnnotations k)
         (seq (created p) (List.length (annotations k)))
         (created p + List.length (annotations k))
         (overlay p).

(** The operations of the store on the page. *)
Definition page_op (p : Page) (op : StoreOp) : Page :=
  match op with
  | OpAdd l r c sh d =>
      page_render
        (set_annotations (annotations (kiosk p) ++ [mkAnnotation r l (Some d) c sh])
                         (kiosk p)) p
  | OpUpdate i l r c sh d =>
      match js_get (annotations (kiosk p)) i with
      | Some _ =>
          page_render
            (set_annotations
               (list_set (annotations (kiosk p)) (Z.to_nat i)
                  (fun _ => mkAnnotation r l d c sh)) (kiosk p)) p
      | None => p
      end
  | OpDelete i =>
      page_render (set_annotations (splice1 (annotations (kiosk p)) i) (kiosk p)) p
  end.

(** [labelRenderer.render(scene, camera)].  [visible] tells which labels the
    projection puts between the near and the far plane of the camera; the
    element of such a label is appended unless the overlay is its parent
    already. *)
Definition labelRenderer_render (visible : Element -> bool) (p : Page) : Page :=
  mkPage (kiosk p) (label_elements p) (created p)
         (fold_left
            (fun dom e =>
               if (visible e && negb (existsb (Nat.eqb e) dom))%bool then dom ++ [e] else dom)
            (label_elements p) (overlay p)).

Inductive PageEvent : Type :=
| Store (op : StoreOp)
| Paint (visible : Element -> bool).

Definition page_step (p : Page) (e : PageEvent) : Page :=
  match e with
  | Store op => page_op p op
  | Paint visible => labelRenderer_render visible p
  end.

Definition page_run (events : list PageEvent) (p : Page) : Page :=
  fold_left page_step events p.

(** The page when the constructor returns: [setupAnnotations] has rendered
    the one record, and no frame has been painted yet. *)
Definition initial_page : Page := mkPage initial (seq 0 1) 1 [].

(** Records in the array, markers in the scene, labels on screen. *)
Definition census (p : Page) : nat * nat * nat :=
  (List.length (annotations (kiosk p)), List.length (markers (kiosk p)),
   List.length (overlay p)).

(** With the camera where the constructor puts it, at (5, 3, 5) looking at
    the centre, every label lies between 3.6 and 11.7 in front of the camera,
    within the near plane at 0.1 and the far plane at 1000. *)
Definition all_visible : Element -> bool := fun _ => true.

(** The first [n] operations of [add_edit_delete], a frame painted before
    the first and after each. *)
Definition painted_after (n : nat) : Page :=
  page_run (flat_map (fun op => [Store op; Paint all_visible]) (firstn n add_edit_delete))
           (page_step initial_page (Paint all_visible)).

(* ================================================================== *)
(** * Properties *)

(** ** Lists *)

Section ListFacts.

Context {A : Type}.

Lemma filter_keeps_all (f : A -> bool) (l : list A) :
  Forall (fun a => f a = true) l -> filter f l = l.
Proof.
  induction 1 as [| a l Ha _ IH]; simpl; [reflexivity |].
  rewrite Ha, IH. reflexivity.
Qed.

Lemma filter_drops_all (f : A -> bool) (l : list A) :
  Forall (fun a => f a = false) l -> filter f l = [].
Proof.
  induction 1 as [| a l Ha _ IH]; simpl; [reflexivity |].
  rewrite Ha. exact IH.
Qed.

Lemma filter_negb_forall (f : A -> bool) (l : list A) :
  Forall (fun a => f a = false) (filter (fun a => negb (f a)) l).
Proof.
  induction l as [| a l IH]; simpl; [constructor |].
  destruct (f a) eqn:E; simpl; [exact IH | constructor; assumption].
Qed.

Lemma js_get_in_range (l : list A) (i : Z) (a : A) :
  js_get l i = Some a -> (0 <= i < Z.of_nat (List.length l))%Z.
Proof.
  unfold js_get. destruct (Z.ltb_spec i 0); [discriminate |].
  intros E. assert (Hn : nth_error l (Z.to_nat i) <> None) by congruence.
  apply nth_error_Some in Hn. lia.
Qed.

Lemma js_get_out_of_range (l : list A) (i : Z) :
  (i < 0 \/ Z.of_nat (List.length l) <= i)%Z -> js_get l i = None.
Proof.
  intros H. unfold js_get. destruct (Z.ltb_spec i 0); [reflexivity |].
  apply nth_error_None. lia.
Qed.

Lemma list_set_length (l : list A) (n : nat) (f : A -> A) :
  List.length (list_set l n f) = List.length l.
Proof.
  revert n. induction l as [| a l IH]; intros [| n]; simpl; auto.
Qed.

Lemma list_set_nth_same (l : list A) (n : nat) (f : A -> A) (a : A) :
  nth_error l n = Some a -> nth_error (list_set l n f) n = Some (f a).
Proof.
  revert n. induction l as [| b l IH]; intros [| n]; simpl; try discriminate.
  - intros [= ->]. reflexivity.
  - apply IH.
Qed.

Lemma list_set_nth_other (l : list A) (n m : nat) (f : A -> A) :
  n <> m -> nth_error (list_set l n f) m = nth_error l m.
Proof.
  revert n m. induction l as [| b l IH]; intros [| n] [| m] H; simpl; auto.
  - congruence.
Qed.

Lemma splice1_past_end (l : list A) (i : Z) :
  (Z.of_nat (List.length l) <= i)%Z -> splice1 l i = l.
Proof.
  intros H. unfold splice1.
  destruct (Z.ltb_spec i 0); [lia |].
  rewrite Z.min_r by lia. rewrite Nat2Z.id.
  rewrite firstn_all, skipn_all2 by lia. apply app_nil_r.
Qed.

End ListFacts.

(** ** The renderer *)

Section Renderer.

Variables (cam : Vec3) (h : ref -> Vec3).

Lemma visuals_tagged (i : Z) (l : list Annotation) :
  Forall (fun o => tagged o = true) (annotation_visuals cam h i l).
Proof.
  revert i. induction l as [| a l IH]; intros i; simpl.
  - constructor.
  - constructor; [reflexivity |]. constructor; [reflexivity |]. apply IH.
Qed.

Lemma visuals_markers (i : Z) (l : list Annotation) :
  List.length (filter is_marker (annotation_visuals cam h i l)) = List.length l.
Proof.
  revert i. induction l as [| a l IH]; intros i; simpl; [reflexivity |].
  f_equal. apply IH.
Qed.

Lemma visuals_labels (i : Z) (l : list Annotation) :
  List.length (flat_map children_of (annotation_visuals cam h i l)) = List.length l.
Proof.
  revert i. induction l as [| a l IH]; intros i; simpl; [reflexivity |].
  f_equal. apply IH.
Qed.

Lemma visuals_ring (i : Z) (l : list Annotation) (o : Object3D) :
  In o (filter is_marker (annotation_visuals cam h i l)) ->
  marker_geometry o = Some (RingGeometry (3 / 100) (4 / 100) 32).
Proof.
  revert i. induction l as [| a l IH]; intros i; simpl; [tauto |].
  intros [<- | H]; [reflexivity | eauto].
Qed.

End Renderer.

Lemma marker_is_tagged (o : Object3D) : is_marker o = true -> tagged o = true.
Proof.
  destruct o as [g m p r u c | g m u | n u]; simpl; try discriminate.
  unfold tagged; simpl. destruct (isAnnotationMarker u); simpl; auto.
Qed.

Lemma untagged_no_markers (l : list Object3D) :
  filter is_marker (filter (fun child => negb (tagged child)) l) = [].
Proof.
  apply filter_drops_all.
  eapply Forall_impl; [| apply filter_negb_forall].
  intros o Ho. simpl in Ho. destruct (is_marker o) eqn:E; [| reflexivity].
  apply marker_is_tagged in E. congruence.
Qed.

(** After a re-render the annotation visuals in the scene are exactly what
    the loop built from the array, the heap and the camera. *)
Lemma render_visuals (s : State) :
  annotation_visuals_of (renderAnnotations s)
  = annotation_visuals (camera_position s) (heap s) 0 (annotations s).
Proof.
  unfold annotation_visuals_of, renderAnnotations. simpl.
  rewrite filter_app.
  rewrite (filter_drops_all tagged) by apply filter_negb_forall.
  simpl. apply filter_keeps_all, visuals_tagged.
Qed.

Lemma render_markers (s : State) :
  markers (renderAnnotations s)
  = filter is_marker (annotation_visuals (camera_position s) (heap s) 0 (annotations s)).
Proof.
  unfold markers, renderAnnotations. simpl.
  rewrite filter_app, untagged_no_markers. reflexivity.
Qed.

Lemma render_labels_on_markers_only (s : State) :
  labels_on_markers_only s -> labels_on_markers_only (renderAnnotations s).
Proof.
  unfold labels_on_markers_only, renderAnnotations. simpl. intros H.
  apply Forall_app. split.
  - apply Forall_forall. intros o Ho. apply filter_In in Ho.
    rewrite Forall_forall in H. apply H, Ho.
  - eapply Forall_impl; [| apply visuals_tagged]. simpl. congruence.
Qed.

Lemma render_labels (s : State) :
  labels_on_markers_only s ->
  List.length (labels (renderAnnotations s)) = List.length (annotations s).
Proof.
  intros H. unfold labels, renderAnnotations. simpl.
  rewrite flat_map_app, length_app, visuals_labels.
  assert (E : flat_map children_of
                (filter (fun child => negb (tagged child)) (scene_children s)) = []).
  { unfold labels_on_markers_only in H.
    induction H as [| o l Ho _ IH]; simpl; [reflexivity |].
    destruct (tagged o) eqn:T; simpl; [exact IH |].
    rewrite (Ho eq_refl). exact IH. }
  rewrite E. reflexivity.
Qed.

Lemma render_annotations (s : State) : annotations (renderAnnotations s) = annotations s.
Proof. reflexivity. Qed.

(** ** The store and its visuals *)

Lemma render_counts (s : State) :
  labels_on_markers_only s -> counts_agree (renderAnnotations s).
Proof.
  intros H. repeat split.
  - rewrite render_markers, visuals_markers. reflexivity.
  - exact (render_labels s H).
  - apply render_labels_on_markers_only, H.
Qed.

Lemma initial_counts : counts_agree initial.
Proof.
  apply render_counts. unfold labels_on_markers_only. simpl.
  repeat constructor.
Qed.

Lemma apply_op_counts (s : State) (op : StoreOp) :
  counts_agree s -> counts_agree (apply_op s op).
Proof.
  intros H. assert (L : labels_on_markers_only s) by apply H.
  destruct op as [l p c sh d | i l p c sh d | i]; simpl.
  - apply render_counts. exact L.
  - unfold updateAnnotation. destruct (js_get (annotations s) i); [| exact H].
    apply render_counts. exact L.
  - apply render_counts. exact L.
Qed.

Lemma run_ops_counts (ops : list StoreOp) (s : State) :
  counts_agree s -> counts_agree (run_ops ops s).
Proof.
  revert s. induction ops as [| op ops IH]; intros s H; simpl; [exact H |].
  apply IH, apply_op_counts, H.
Qed.

(** An update leaves the length of the array as it was. *)
Lemma updateAnnotation_length (i : Z) (l : string) (p : ref) (c sh : string)
      (d : option string) (s : State) :
  List.length (annotations (updateAnnotation i l p c sh d s))
  = List.length (annotations s).
Proof.
  unfold updateAnnotation. destruct (js_get (annotations s) i); [| reflexivity].
  simpl. apply list_set_length.
Qed.

(** Every marker that a re-render puts in the scene is the ring, whatever
    the shape of its record. *)
Lemma rendered_marker_is_ring (s : State) (o : Object3D) :
  In o (markers (renderAnnotations s)) ->
  marker_geometry o = Some (RingGeometry (3 / 100) (4 / 100) 32).
Proof.
  rewrite render_markers. apply visuals_ring.
Qed.

(** C1, at the scenario.  The record now has the shape cube and the array
    still has one record, but the one marker of the scene is built on the
    ring geometry, not on the box that [getMarkerGeometry] gives for a cube:
    the renderer never asks [getMarkerGeometry]. *)
Theorem update_to_cube_renders_ring :
  map shape (annotations gate_cube) = ["cube"] /\
  List.length (annotations gate_cube) = List.length (annotations initial) /\
  map marker_geometry (markers gate_cube)
    = [Some (RingGeometry (3 / 100) (4 / 100) 32)] /\
  getMarkerGeometry "cube" = BoxGeometry (5 / 100 * 2) (5 / 100 * 2) (5 / 100 * 2) /\
  map marker_geometry (markers gate_cube) <> [Some (getMarkerGeometry "cube")].
Proof.
  repeat split; try reflexivity.
  discriminate.
Qed.

(** ** Indices out of range *)

(** An update at an index that names no record changes nothing at all. *)
Lemma updateAnnotation_out_of_range (i : Z) (l : string) (p : ref) (c sh : string)
      (d : option string) (s : State) :
  (i < 0 \/ Z.of_nat (List.length (annotations s)) <= i)%Z ->
  updateAnnotation i l p c sh d s = s.
Proof.
  intros H. unfold updateAnnotation.
  rewrite (js_get_out_of_range _ _ H). reflexivity.
Qed.

(** A delete at an index at or past the end leaves the array as it was. *)
Lemma deleteAnnotation_past_end (i : Z) (s : State) :
  (Z.of_nat (List.length (annotations s)) <= i)%Z ->
  annotations (deleteAnnotation i s) = annotations s.
Proof.
  intros H. unfold deleteAnnotation. simpl. apply splice1_past_end, H.
Qed.

(** A delete at any negative index removes one record of a non-empty
    array. *)
Lemma deleteAnnotation_negative (i : Z) (s : State) :
  (i < 0)%Z -> annotations s <> [] ->
  S (List.length (annotations (deleteAnnotation i s))) = List.length (annotations s).
Proof.
  intros Hi Hne. unfold deleteAnnotation. simpl. unfold splice1.
  destruct (Z.ltb_spec i 0); [| lia].
  set (len := List.length (annotations s)).
  assert (Hlen : (0 < len)%nat).
  { unfold len. destruct (annotations s); [congruence | simpl; lia]. }
  set (k := Z.to_nat (Z.max (Z.of_nat len + i) 0)).
  assert (Hk : (k < len)%nat) by (unfold k; lia).
  rewrite length_app, length_firstn, length_skipn. fold len. lia.
Qed.

(** C2, at a negative index.  [deleteAnnotation(-1)] on the kiosk as it
    starts removes the one record there is: [splice] counts a negative start
    from the end of the array. *)
Theorem delete_negative_removes_last :
  annotations initial = [initial_annotation] /\
  annotations (deleteAnnotation (-1) initial) = [] /\
  markers (deleteAnnotation (-1) initial) = [].
Proof.
  repeat split; reflexivity.
Qed.

(** ** What a re-render depends on *)

Lemma normalize_unit (v : Vec3) : Vector3.lengthSq v = 1 -> Vector3.normalize v = v.
Proof.
  intros H. unfold Vector3.normalize, Vector3.length. rewrite H, sqrt_1.
  destruct (Req_dec_T 1 0) as [E | _]; [lra |].
  destruct v as [a b c]. unfold Vector3.divideScalar, Vector3.multiplyScalar. simpl.
  f_equal; field.
Qed.

(** A marker one unit away from the camera, not straight below or above it,
    turns its axis to the camera. *)
Lemma lookAt_unit_axis (p c : Vec3) :
  Vector3.lengthSq (Vector3.sub c p) = 1 ->
  Vector3.lengthSq (Vector3.cross default_up (Vector3.sub c p)) <> 0 ->
  rot_z (Object3D_lookAt p c) = Vector3.sub c p.
Proof.
  intros H1 H2. unfold Object3D_lookAt, Matrix4_lookAt. cbv zeta.
  destruct (Req_dec_T (Vector3.lengthSq (Vector3.sub c p)) 0) as [E | _]; [lra |].
  rewrite (normalize_unit _ H1).
  destruct (Req_dec_T (Vector3.lengthSq (Vector3.cross default_up (Vector3.sub c p))) 0)
    as [E | _]; [contradiction |].
  reflexivity.
Qed.

Lemma visuals_by_value (cam : Vec3) (h1 h2 : ref -> Vec3) (i : Z)
      (l1 l2 : list Annotation) :
  map (fun a => (h1 (position a), label a, description a, color a, shape a)) l1
  = map (fun a => (h2 (position a), label a, description a, color a, shape a)) l2 ->
  annotation_visuals cam h1 i l1 = annotation_visuals cam h2 i l2.
Proof.
  revert i l2. induction l1 as [| a l1 IH]; intros i [| b l2] H; simpl in *;
    try discriminate; [reflexivity |].
  injection H as Hp Hl Hd Hc _ Hrest.
  unfold make_marker, make_line. rewrite Hp, Hl, Hd, Hc.
  f_equal. f_equal. apply IH, Hrest.
Qed.

Lemma visuals_forget_camera (cam1 cam2 : Vec3) (h : ref -> Vec3) (i : Z)
      (l : list Annotation) :
  map forget_rotation (annotation_visuals cam1 h i l)
  = map forget_rotation (annotation_visuals cam2 h i l).
Proof.
  revert i. induction l as [| a l IH]; intros i; simpl; [reflexivity |].
  f_equal. f_equal. apply IH.
Qed.

(** C3, amended.  The annotation visuals that a re-render leaves in the
    scene are a function of the annotation array (each record with its
    position) together with the position of the camera at the time of the
    re-render: from equal arrays and equal camera positions the visual sets
    are identical, whatever else the two states hold; and from equal arrays
    alone the visual sets agree in everything but the orientation of the
    markers. *)
Theorem render_function_of_array_and_camera (s1 s2 : State) :
  annotation_values s1 = annotation_values s2 ->
  (camera_position s1 = camera_position s2 ->
   annotation_visuals_of (renderAnnotations s1)
   = annotation_visuals_of (renderAnnotations s2)) /\
  map forget_rotation (annotation_visuals_of (renderAnnotations s1))
  = map forget_rotation (annotation_visuals_of (renderAnnotations s2)).
Proof.
  intros H. rewrite !render_visuals. split.
  - intros ->. apply visuals_by_value, H.
  - rewrite (visuals_forget_camera (camera_position s1) (camera_position s2)).
    f_equal. apply visuals_by_value, H.
Qed.

Lemma render_function_of_array_and_camera_witness :
  annotation_values initial
  = annotation_values (step (step initial (LockToggle true)) (ModelLoaded "coin")) /\
  annotation_visuals_of (renderAnnotations initial)
  = annotation_visuals_of
      (renderAnnotations (step (step initial (LockToggle true)) (ModelLoaded "coin"))).
Proof.
  split; [reflexivity |].
  apply (render_function_of_array_and_camera
           initial (step (step initial (LockToggle true)) (ModelLoaded "coin")));
    reflexivity.
Defined.

(** C3, as stated, fails: the two states hold the same annotation array,
    and a re-render gives the marker a different orientation in each, since
    [marker.lookAt] reads the camera. *)
Lemma render_depends_on_camera :
  annotation_values orbit_front = annotation_values orbit_side /\
  annotation_visuals_of (renderAnnotations orbit_front)
  <> annotation_visuals_of (renderAnnotations orbit_side).
Proof.
  split; [reflexivity |].
  rewrite !render_visuals. intros H.
  apply (f_equal (fun l => match l with
                           | Mesh _ _ _ r _ _ :: _ => Some (rot_z r)
                           | _ => None
                           end)) in H.
  set (p := Vector3.mk (9 / 10) (5 / 100) (2 / 10)).
  change (Some (rot_z (Object3D_lookAt p (Vector3.mk (9 / 10) (5 / 100) (12 / 10))))
          = Some (rot_z (Object3D_lookAt p (Vector3.mk (19 / 10) (5 / 100) (2 / 10)))))
    in H.
  rewrite !lookAt_unit_axis in H;
    try (unfold Vector3.lengthSq, Vector3.dot; simpl; lra).
  injection H. intros. lra.
Qed.

(** ** Saving the editor *)

Example trim_strips_both_ends : trim "  Gate " = "Gate".
Proof. reflexivity. Qed.

(** C4.  With the editor open on record [i], saving gives the record the
    trimmed label, the colour and the shape of the form, keeps its position
    (the same vector object, with the same coordinates) and leaves its
    description undefined. *)
Theorem saveEdit_overwrites_record (s : State) (i : Z) (a : Annotation) (form : Form) :
  currentEditIndex s = Some i ->
  js_get (annotations s) i = Some a ->
  exists s',
    saveEdit form s = Done s' /\
    js_get (annotations s') i
    = Some (mkAnnotation (position a) (trim (edit_label form)) None
                         (edit_color form) (edit_shape form)) /\
    heap s' (position a) = heap s (position a).
Proof.
  intros He Ha. unfold saveEdit. rewrite He, Ha.
  eexists. split; [reflexivity |].
  unfold updateAnnotation. rewrite Ha. simpl. split; [| reflexivity].
  unfold js_get in *. destruct (i <? 0)%Z; [discriminate |].
  exact (list_set_nth_same (annotations s) (Z.to_nat i)
           (fun _ => mkAnnotation (position a) (trim (edit_label form)) None
                                  (edit_color form) (edit_shape form)) a Ha).
Qed.

Lemma saveEdit_overwrites_record_witness :
  currentEditIndex editing_new = Some 1%Z /\
  js_get (annotations editing_new) 1
  = Some (mkAnnotation 1%nat "Annotation 2"
            (Some "Add your annotation description here.") default_color "sphere") /\
  exists s',
    saveEdit (mkForm "  Gate " "#ff0000" "cube") editing_new = Done s' /\
    js_get (annotations s') 1
    = Some (mkAnnotation 1%nat "Gate" None "#ff0000" "cube") /\
    heap s' 1%nat = heap editing_new 1%nat.
Proof.
  split; [reflexivity |]. split; [reflexivity |].
  apply (saveEdit_overwrites_record editing_new 1
           (mkAnnotation 1%nat "Annotation 2"
              (Some "Add your annotation description here.") default_color "sphere")
           (mkForm "  Gate " "#ff0000" "cube"));
    reflexivity.
Defined.

(** ** Camera animator *)

(** C10.  [focusOnAnnotation] at an index that names no record returns with
    the state as it was: no animation is scheduled, the camera and the
    look-at target of the controls keep their values. *)
Theorem focus_out_of_range (s : State) (i startTime now : Z) :
  (i < 0 \/ Z.of_nat (List.length (annotations s)) <= i)%Z ->
  focusOnAnnotation i startTime now s = s.
Proof.
  intros H. unfold focusOnAnnotation.
  destruct (Z.leb_spec 0 i); destruct (Z.ltb_spec i (Z.of_nat (List.length (annotations s))));
    simpl; try reflexivity.
  lia.
Qed.

Lemma focus_out_of_range_witness :
  focusOnAnnotation 1 0 0 initial = initial /\
  focusOnAnnotation (-1) 0 0 initial = initial.
Proof.
  split.
  - apply (focus_out_of_range initial 1 0 0). right. simpl. lia.
  - apply (focus_out_of_range initial (-1) 0 0). left. lia.
Defined.

Lemma lerpVectors_0 (a b : Vec3) : Vector3.lerpVectors a b 0 = a.
Proof. destruct a, b. unfold Vector3.lerpVectors. simpl. f_equal; ring. Qed.

Lemma lerpVectors_1 (a b : Vec3) : Vector3.lerpVectors a b 1 = b.
Proof. destruct a, b. unfold Vector3.lerpVectors. simpl. f_equal; ring. Qed.

Lemma eased_0 : eased 0 = 0.
Proof. unfold eased. destruct (Rlt_dec 0 (1 / 2)); lra. Qed.

Lemma eased_1 : eased 1 = 1.
Proof. unfold eased. destruct (Rlt_dec 1 (1 / 2)); lra. Qed.

(** Two functions that are continuous at [c] and meet there glue to a
    function that is continuous at [c]. *)
Lemma glue_continuous (f g : R -> R) (c : R) :
  continuity_pt f c -> continuity_pt g c -> f c = g c ->
  continuity_pt (fun x => if Rlt_dec x c then f x else g x) c.
Proof.
  intros Hf Hg E eps Heps.
  destruct (Hf eps Heps) as (d1 & Hd1 & H1).
  destruct (Hg eps Heps) as (d2 & Hd2 & H2).
  exists (Rmin d1 d2). split; [apply Rmin_pos; assumption |].
  intros x [Hx Hd].
  destruct (Rlt_dec c c) as [F | _]; [lra |].
  destruct (Rlt_dec x c).
  - rewrite <- E. apply H1. split; [exact Hx |].
    eapply Rlt_le_trans; [exact Hd | apply Rmin_l].
  - apply H2. split; [exact Hx |].
    eapply Rlt_le_trans; [exact Hd | apply Rmin_r].
Qed.

Lemma eased_continuous : continuity eased.
Proof.
  assert (C1 : continuity (fun p => 2 * p * p)) by reg.
  assert (C2 : continuity (fun p => -1 + (4 - 2 * p) * p)) by reg.
  intros x. destruct (Rtotal_order x (1 / 2)) as [L | [-> | G]].
  - apply (continuity_pt_locally_ext (fun p => 2 * p * p) eased (1 / 2 - x)).
    + lra.
    + intros y Hy. unfold Rdist in Hy. unfold eased.
      destruct (Rlt_dec y (1 / 2)) as [_ | N]; [reflexivity |].
      exfalso. apply N. apply Rabs_def2 in Hy. lra.
    + apply C1.
  - apply (glue_continuous (fun p => 2 * p * p) (fun p => -1 + (4 - 2 * p) * p) (1 / 2)).
    + apply C1.
    + apply C2.
    + lra.
  - apply (continuity_pt_locally_ext (fun p => -1 + (4 - 2 * p) * p) eased (x - 1 / 2)).
    + lra.
    + intros y Hy. unfold Rdist in Hy. unfold eased.
      destruct (Rlt_dec y (1 / 2)) as [N | _]; [| reflexivity].
      exfalso. apply Rabs_def2 in Hy. lra.
    + apply C2.
Qed.

Lemma eased_monotone_first_half (p q : R) :
  0 <= p -> p <= q -> q <= 1 / 2 -> eased p <= eased q.
Proof.
  intros H0 H1 H2. unfold eased.
  destruct (Rlt_dec p (1 / 2)); destruct (Rlt_dec q (1 / 2)); nra.
Qed.

Lemma eased_monotone_second_half (p q : R) :
  1 / 2 <= p -> p <= q -> q <= 1 -> eased p <= eased q.
Proof.
  intros H0 H1 H2. unfold eased.
  destruct (Rlt_dec p (1 / 2)); destruct (Rlt_dec q (1 / 2)); nra.
Qed.

Lemma progress_at_start (a : CameraAnimation) : progress_at a (startTime a) = 0.
Proof.
  unfold progress_at, duration. rewrite Z.sub_diag.
  rewrite Rmin_left; lra.
Qed.

Lemma progress_at_end (a : CameraAnimation) (late : nat) :
  progress_at a (startTime a + 1000 + Z.of_nat late) = 1.
Proof.
  unfold progress_at, duration.
  replace (startTime a + 1000 + Z.of_nat late - startTime a)%Z
    with (1000 + Z.of_nat late)%Z by lia.
  rewrite plus_IZR, <- INR_IZR_INZ.
  apply Rmin_right. pose proof (pos_INR late). lra.
Qed.

(** C9.  The easing is 0 at progress 0 and 1 at progress 1, so the run of
    [animate] at the start time writes the start position and start target,
    and any run at or after the full duration writes the target position and
    look-at point and asks for no further frame; the easing is continuous
    (everywhere, so on the unit interval), and it does not decrease on the
    first half nor on the second half of the unit interval. *)
Theorem eased_endpoints_continuous_monotone :
  eased 0 = 0 /\ eased 1 = 1 /\
  (forall a s,
      camera_position (fst (animate a (startTime a) s)) = startPosition a /\
      controls_target (fst (animate a (startTime a) s)) = startTarget a) /\
  (forall a s late,
      camera_position (fst (animate a (startTime a + 1000 + Z.of_nat late) s))
      = anim_position a /\
      controls_target (fst (animate a (startTime a + 1000 + Z.of_nat late) s))
      = anim_lookAt a /\
      snd (animate a (startTime a + 1000 + Z.of_nat late) s) = false) /\
  (forall p, continuity_pt eased p) /\
  (forall p q, 0 <= p -> p <= q -> q <= 1 / 2 -> eased p <= eased q) /\
  (forall p q, 1 / 2 <= p -> p <= q -> q <= 1 -> eased p <= eased q).
Proof.
  split; [exact eased_0 |]. split; [exact eased_1 |].
  split; [| split; [| split; [| split]]].
  - intros a s. unfold animate. simpl.
    rewrite progress_at_start, eased_0, !lerpVectors_0. split; reflexivity.
  - intros a s late. unfold animate. simpl.
    rewrite progress_at_end, eased_1, !lerpVectors_1.
    destruct (Rlt_dec 1 1); [lra |]. repeat split.
  - exact eased_continuous.
  - exact eased_monotone_first_half.
  - exact eased_monotone_second_half.
Qed.

Lemma eased_endpoints_continuous_monotone_witness :
  eased (1 / 4) <= eased (1 / 2) /\ eased (1 / 2) <= eased (3 / 4).
Proof.
  destruct eased_endpoints_continuous_monotone as (_ & _ & _ & _ & _ & M1 & M2).
  split; [apply M1 | apply M2]; lra.
Defined.

(** ** Starting a drag *)

(** Without an open editor a mouse-down changes nothing. *)
Lemma onMouseDown_without_editor (intersects : list Object3D) (s : State) :
  currentEditIndex s = None -> onMouseDown intersects s = s.
Proof. intros H. unfold onMouseDown. rewrite H. reflexivity. Qed.

(** A mouse-down whose nearest hit is not the marker of the record in the
    editor (the marker of another record, or a connecting line) changes
    nothing. *)
Lemma onMouseDown_on_other_visual (obj : Object3D) (others : list Object3D) (s : State) :
  annotationIndex (userData_of obj) <> currentEditIndex s ->
  onMouseDown (obj :: others) s = s.
Proof.
  intros H. unfold onMouseDown.
  destruct (currentEditIndex s) as [e |]; [| reflexivity].
  destruct (annotationIndex (userData_of obj)) as [k |]; [| reflexivity].
  destruct (Z.eqb_spec k e) as [-> | _]; [congruence | reflexivity].
Qed.

(** When a mouse-down starts a drag, the dragged index is the index in the
    editor. *)
Lemma onMouseDown_drags_edited (intersects : list Object3D) (s : State) :
  isDragging s = false ->
  isDragging (onMouseDown intersects s) = true ->
  draggedAnnotationIndex (onMouseDown intersects s)
  = currentEditIndex (onMouseDown intersects s)
  /\ currentEditIndex (onMouseDown intersects s) <> None.
Proof.
  intros H0. unfold onMouseDown.
  destruct (currentEditIndex s) as [e |] eqn:E; [| congruence].
  destruct intersects as [| obj rest]; [congruence |].
  destruct (annotationIndex (userData_of obj)) as [k |]; [| congruence].
  destruct (k =? e)%Z; [| congruence].
  simpl. intros _. rewrite E. split; congruence.
Qed.

Lemma reachable_editing_new : reachable editing_new.
Proof. apply reachable_step; [apply reachable_initial | exact I]. Qed.

Lemma reachable_run (events : list Event) (s : State) :
  reachable s -> receivable_run s events -> reachable (run_events events s).
Proof.
  revert s. induction events as [| e rest IH]; intros s Hs Hr; simpl; [exact Hs |].
  destruct Hr as [He Hrest]. apply IH; [apply reachable_step; assumption | exact Hrest].
Qed.

(** ** The ray cast of the drag scenarios *)

(** A pair of points at which the connecting vector is across both the ray
    and the segment is a nearest pair. *)
Lemma closest_across (ray : Ray) (a b : Vec3) (t w : R) :
  0 <= t -> 0 <= w <= 1 ->
  Vector3.dot (Vector3.sub (Ray_at ray t) (segment_at a b w)) (direction ray) = 0 ->
  Vector3.dot (Vector3.sub (Ray_at ray t) (segment_at a b w)) (Vector3.sub b a) = 0 ->
  closest ray a b t w.
Proof.
  intros Ht Hw H1 H2. split; [exact Ht |]. split; [exact Hw |].
  intros t' w' _ _.
  destruct ray as [[ox oy oz] [dx dy dz]]. destruct a as [ax ay az]. destruct b as [bx b_y bz].
  unfold gapSq, segment_at, Ray_at, Vector3.lengthSq, Vector3.dot, Vector3.sub, Vector3.add,
    Vector3.multiplyScalar, Vector3.lerpVectors in *.
  simpl in *.
  pose proof (Rle_0_sqr (dx * (t' - t) - (bx - ax) * (w' - w))) as S1.
  pose proof (Rle_0_sqr (dy * (t' - t) - (b_y - ay) * (w' - w))) as S2.
  pose proof (Rle_0_sqr (dz * (t' - t) - (bz - az) * (w' - w))) as S3.
  unfold Rsqr in S1, S2, S3.
  match type of H1 with ?e1 = 0 =>
  match type of H2 with ?e2 = 0 =>
  match goal with |- ?g <= ?g' =>
    replace g' with
      (g + ((dx * (t' - t) - (bx - ax) * (w' - w)) * (dx * (t' - t) - (bx - ax) * (w' - w))
            + (dy * (t' - t) - (b_y - ay) * (w' - w)) * (dy * (t' - t) - (b_y - ay) * (w' - w))
            + (dz * (t' - t) - (bz - az) * (w' - w)) * (dz * (t' - t) - (bz - az) * (w' - w)))
       + 2 * (t' - t) * e1 - 2 * (w' - w) * e2) by ring
  end end end.
  rewrite H1, H2. lra.
Qed.

(** The label anchor of a point within 1.25 of the centre: the point scaled
    by a factor of at least 2. *)
Lemma labelOffset_scale (p : Vec3) :
  0 < Vector3.lengthSq p -> Vector3.lengthSq p <= (5 / 4) * (5 / 4) ->
  exists k, 2 <= k /\ labelOffset p = Vector3.multiplyScalar p k.
Proof.
  intros H0 H1.
  assert (L0 : 0 < Vector3.length p) by (apply sqrt_lt_R0; exact H0).
  assert (L1 : Vector3.length p <= 5 / 4).
  { unfold Vector3.length. rewrite <- (sqrt_square (5 / 4)) by lra.
    apply sqrt_le_1; lra. }
  exists (1 / Vector3.length p * (5 / 2)). split.
  - assert (4 / 5 <= 1 / Vector3.length p).
    { apply Rmult_le_reg_r with (Vector3.length p); [exact L0 |].
      unfold Rdiv at 2. rewrite Rmult_1_l, Rinv_l by lra. lra. }
    lra.
  - unfold labelOffset, Vector3.normalize.
    destruct (Req_dec_T (Vector3.length p) 0) as [E | _]; [lra |].
    destruct p as [a b c].
    unfold Vector3.divideScalar, Vector3.multiplyScalar. simpl. f_equal; ring.
Qed.

(** A marker that is not straight below or above the camera turns its z axis
    to the camera. *)
Lemma lookAt_axis (p c : Vec3) :
  Vector3.x (Vector3.sub c p) <> 0 ->
  exists k, 0 < k /\
            rot_z (Object3D_lookAt p c) = Vector3.multiplyScalar (Vector3.sub c p) k.
Proof.
  intros Hx.
  assert (Hsq : 0 < Vector3.lengthSq (Vector3.sub c p)).
  { destruct (Vector3.sub c p) as [a b d]. unfold Vector3.lengthSq, Vector3.dot. simpl in *.
    pose proof (Rle_0_sqr b) as Sb. pose proof (Rle_0_sqr d) as Sd.
    assert (0 < a * a) by nra. unfold Rsqr in *. lra. }
  assert (L0 : 0 < Vector3.length (Vector3.sub c p)) by (apply sqrt_lt_R0; exact Hsq).
  assert (K0 : 0 < 1 / Vector3.length (Vector3.sub c p)).
  { unfold Rdiv. rewrite Rmult_1_l. apply Rinv_0_lt_compat, L0. }
  exists (1 / Vector3.length (Vector3.sub c p)). split; [exact K0 |].
  unfold Object3D_lookAt, Matrix4_lookAt. cbv zeta.
  destruct (Req_dec_T (Vector3.lengthSq (Vector3.sub c p)) 0) as [E | _]; [lra |].
  assert (N : Vector3.normalize (Vector3.sub c p)
              = Vector3.multiplyScalar (Vector3.sub c p)
                  (1 / Vector3.length (Vector3.sub c p))).
  { unfold Vector3.normalize.
    destruct (Req_dec_T (Vector3.length (Vector3.sub c p)) 0) as [E | _]; [lra |].
    reflexivity. }
  rewrite N.
  destruct (Req_dec_T _ 0) as [E | _]; [| reflexivity].
  exfalso. revert E. set (k := 1 / Vector3.length (Vector3.sub c p)) in *.
  destruct (Vector3.sub c p) as [a b d].
  unfold default_up, Vector3.lengthSq, Vector3.dot, Vector3.cross, Vector3.multiplyScalar.
  simpl in *. intros E.
  assert (0 < (a * k) * (a * k)) by (assert (a * k <> 0) by (apply Rmult_integral_contrapositive; lra); nra).
  pose proof (Rle_0_sqr (d * k)) as Sd. unfold Rsqr in Sd. nra.
Qed.

Lemma facing_new_under_cursor (D : R) :
  under_cursor (facing_new D)
  = [ make_marker (Vector3.mk 5 3 5) (heap editing_new) 1
        (mkAnnotation 1%nat "Annotation 2" (Some "Add your annotation description here.")
                      default_color "sphere");
      make_line (heap editing_new)
        (mkAnnotation 1%nat "Annotation 2" (Some "Add your annotation description here.")
                      default_color "sphere") ].
Proof. reflexivity. Qed.

Lemma facing_new_visuals (D : R) :
  annotation_visuals_of (facing_new D)
  = annotation_visuals (Vector3.mk 5 3 5) (heap editing_new) 0 (annotations editing_new).
Proof. reflexivity. Qed.

Lemma heap_editing_new_0 : heap editing_new 0%nat = Vector3.mk (9 / 10) (5 / 100) (2 / 10).
Proof. reflexivity. Qed.

Lemma heap_editing_new_1 : heap editing_new 1%nat = Vector3.mk 0 (2 / 10) 1.
Proof. reflexivity. Qed.

Lemma radial_segment (p : Vec3) (k w : R) :
  segment_at p (Vector3.multiplyScalar p k) w
  = Vector3.multiplyScalar p (1 + (k - 1) * w).
Proof.
  destruct p as [a b c].
  unfold segment_at, Vector3.lerpVectors, Vector3.multiplyScalar. simpl. f_equal; ring.
Qed.

Lemma cursor_direction_unit : Vector3.lengthSq cursor_direction = 1.
Proof. unfold Vector3.lengthSq, Vector3.dot, cursor_direction. simpl. lra. Qed.

(** The ray under the cursor crosses the ring of the second marker [D] units
    from the camera, at [ring_point]. *)
Lemma cursor_meets_ring (D : R) :
  0 <= D ->
  reports (cursor_ray D)
    (make_marker (Vector3.mk 5 3 5) (heap editing_new) 1
       (mkAnnotation 1%nat "Annotation 2" (Some "Add your annotation description here.")
                     default_color "sphere"))
    D.
Proof.
  intros HD. unfold make_marker.
  change (heap editing_new _) with (Vector3.mk 0 (2 / 10) 1).
  destruct (lookAt_axis (Vector3.mk 0 (2 / 10) 1) (Vector3.mk 5 3 5)) as (k & Hk & Hz).
  { simpl. lra. }
  apply reports_ring; try rewrite Hz.
  - exact HD.
  - unfold Vector3.dot, Vector3.multiplyScalar, Vector3.sub, cursor_ray, cursor_direction.
    simpl. nra.
  - unfold Vector3.dot, Vector3.multiplyScalar, Vector3.sub, Vector3.add, Ray_at, cursor_ray,
      camera_at, cursor_direction, ring_point. simpl. field.
  - pose proof (COS_bound (PI / IZR 32)) as [C1 C2].
    unfold Rsqr, Vector3.lengthSq, Vector3.dot, Vector3.multiplyScalar, Vector3.sub,
      Vector3.add, Ray_at, cursor_ray, camera_at, cursor_direction, ring_point. simpl.
    match goal with |- _ <= ?r => ring_simplify r end.
    assert (cos (PI / 32) * cos (PI / 32) <= 1) by nra.
    nra.
  - unfold Rsqr, Vector3.lengthSq, Vector3.dot, Vector3.multiplyScalar, Vector3.sub,
      Vector3.add, Ray_at, cursor_ray, camera_at, cursor_direction, ring_point. simpl.
    match goal with |- ?l <= _ => ring_simplify l end.
    lra.
Qed.

(** ... and is nearest to the connecting line of the second record a little
    further on: it passes the ring first. *)
Lemma cursor_meets_line (D : R) :
  0 <= D ->
  reports (cursor_ray D)
    (make_line (heap editing_new)
       (mkAnnotation 1%nat "Annotation 2" (Some "Add your annotation description here.")
                     default_color "sphere"))
    (D + 597 / 15625).
Proof.
  intros HD. unfold make_line.
  change (heap editing_new _) with (Vector3.mk 0 (2 / 10) 1).
  destruct (labelOffset_scale (Vector3.mk 0 (2 / 10) 1)) as (k & Hk & Hl).
  { unfold Vector3.lengthSq, Vector3.dot. simpl. lra. }
  { unfold Vector3.lengthSq, Vector3.dot. simpl. lra. }
  rewrite Hl.
  set (w := 879 / 25000 / (k - 1)).
  assert (Hw : (k - 1) * w = 879 / 25000) by (unfold w; field; lra).
  assert (Hw01 : 0 <= w <= 1).
  { assert (0 < / (k - 1) <= 1).
    { split; [apply Rinv_0_lt_compat; lra |].
      rewrite <- Rinv_1. apply Rinv_le_contravar; lra. }
    unfold w, Rdiv at 1. nra. }
  apply reports_line with (w := w).
  - apply closest_across; [lra | exact Hw01 | |]; rewrite radial_segment, Hw.
    + unfold Vector3.dot, Vector3.multiplyScalar, Vector3.sub, Vector3.add, Ray_at,
        cursor_ray, camera_at, cursor_direction, ring_point. simpl. field.
    + unfold Vector3.dot, Vector3.multiplyScalar, Vector3.sub, Vector3.add, Ray_at,
        cursor_ray, camera_at, cursor_direction, ring_point. simpl. field.
  - unfold gapSq. rewrite radial_segment, Hw.
    unfold line_threshold, Vector3.lengthSq, Vector3.dot, Vector3.multiplyScalar,
      Vector3.sub, Vector3.add, Ray_at, cursor_ray, camera_at, cursor_direction, ring_point.
    simpl.
    match goal with |- ?l <= _ => ring_simplify l end.
    lra.
Qed.

(** The ray stays more than the threshold away from the connecting line of
    the first record. *)
Lemma cursor_misses_first_line (D t : R) :
  ~ reports (cursor_ray D) (make_line (heap editing_new) initial_annotation) t.
Proof.
  unfold make_line.
  change (heap editing_new _) with (Vector3.mk (9 / 10) (5 / 100) (2 / 10)).
  destruct (labelOffset_scale (Vector3.mk (9 / 10) (5 / 100) (2 / 10))) as (k & Hk & Hl).
  { unfold Vector3.lengthSq, Vector3.dot. simpl. lra. }
  { unfold Vector3.lengthSq, Vector3.dot. simpl. lra. }
  rewrite Hl. intros H.
  inversion H as [| a b m u t' w (_ & (Hw & _) & _) Hg]; subst.
  unfold gapSq in Hg. rewrite radial_segment in Hg.
  assert (Hs : 0 <= (k - 1) * w) by nra.
  revert Hg. generalize ((k - 1) * w) Hs. intros sigma Hsigma.
  unfold line_threshold, Vector3.lengthSq, Vector3.dot, Vector3.multiplyScalar,
    Vector3.sub, Vector3.add, Ray_at, cursor_ray, camera_at, cursor_direction, ring_point.
  simpl. intros Hg.
  pose proof (Rle_0_sqr (t - D + 281 / 3125 - 7 / 10 * sigma)) as S. unfold Rsqr in S.
  nra.
Qed.

(** The mouse-down of the drag scenarios is what the ray cast gives: the
    ring of the second marker, then its connecting line, and nothing of the
    first record. *)
Lemma under_cursor_receivable (D : R) :
  0 <= D -> receivable (facing_new D) (MouseDown (under_cursor (facing_new D))).
Proof.
  intros HD. exists (cursor_ray D).
  split; [reflexivity |]. split; [exact cursor_direction_unit |].
  rewrite facing_new_under_cursor, facing_new_visuals.
  exists [D; D + 597 / 15625].
  split; [| split; [| split]].
  - constructor; [apply cursor_meets_ring, HD |].
    constructor; [apply cursor_meets_line, HD | constructor].
  - simpl. split; [lra | exact I].
  - constructor; [simpl; tauto |]. constructor; [simpl; tauto | constructor].
  - intros o t Ho Hl Hr. simpl in Ho.
    destruct Ho as [<- | [<- | [<- | [<- | []]]]]; try discriminate.
    + exfalso. exact (cursor_misses_first_line D t Hr).
    + simpl. tauto.
Qed.

(** The square of the distance from the centre of the scene to the point
    [t] along a ray. *)
Lemma lengthSq_Ray_at (ray : Ray) (t : R) :
  Vector3.lengthSq (Ray_at ray t)
  = Vector3.lengthSq (origin ray)
    + 2 * t * Vector3.dot (origin ray) (direction ray)
    + t * t * Vector3.lengthSq (direction ray).
Proof.
  destruct ray as [[ox oy oz] [dx dy dz]].
  unfold Ray_at, Vector3.lengthSq, Vector3.dot, Vector3.add, Vector3.multiplyScalar.
  simpl. ring.
Qed.

(** What [intersectObject] reports is the first point of the ray on the
    sphere. *)
Lemma intersectObject_first_point (ray : Ray) (radius : R) (p : Vec3) (rest : list Vec3) :
  Vector3.lengthSq (direction ray) = 1 ->
  intersectObject ray radius = p :: rest ->
  rest = [] /\
  exists t, 0 <= t /\ p = Ray_at ray t /\
            Vector3.lengthSq p = radius * radius /\
            forall t', 0 <= t' ->
                       Vector3.lengthSq (Ray_at ray t') = radius * radius -> t <= t'.
Proof.
  intros Hu. unfold intersectObject. cbv zeta.
  set (v := Vector3.sub Vector3.zero (origin ray)).
  set (tca := Vector3.dot v (direction ray)).
  set (d2 := Vector3.dot v v - tca * tca).
  destruct (Rlt_dec d2 (radius * radius)) as [Hlt |]; [| discriminate].
  set (thc := sqrt (radius * radius - d2)).
  destruct (Rle_dec 0 (tca - thc)) as [Hpos |]; [| discriminate].
  intros [= <- <-]. split; [reflexivity |].
  assert (Hthc : thc * thc = radius * radius - d2) by (apply sqrt_sqrt; lra).
  assert (Hthc0 : 0 <= thc) by apply sqrt_pos.
  assert (Htca : tca = - Vector3.dot (origin ray) (direction ray)).
  { unfold tca, v. destruct ray as [[ox oy oz] [dx dy dz]].
    unfold Vector3.dot, Vector3.sub, Vector3.zero. simpl. ring. }
  assert (Hd2 : d2 = Vector3.lengthSq (origin ray) - tca * tca).
  { unfold d2, v. destruct ray as [[ox oy oz] [dx dy dz]].
    unfold Vector3.lengthSq, Vector3.dot, Vector3.sub, Vector3.zero. simpl. ring. }
  exists (tca - thc). split; [exact Hpos |]. split; [reflexivity |]. split.
  - rewrite lengthSq_Ray_at, Hu. nra.
  - intros t' Ht' Hon. rewrite lengthSq_Ray_at, Hu in Hon.
    assert (Hsq : (t' - tca) * (t' - tca) = thc * thc) by nra.
    nra.
Qed.

(** A ray that starts outside the sphere and passes through its inside is
    reported. *)
Lemma intersectObject_reports (ray : Ray) (radius t : R) :
  Vector3.lengthSq (direction ray) = 1 ->
  radius * radius < Vector3.lengthSq (origin ray) ->
  0 <= t -> Vector3.lengthSq (Ray_at ray t) < radius * radius ->
  intersectObject ray radius <> [].
Proof.
  intros Hu Hout Ht Hin. unfold intersectObject. cbv zeta.
  set (v := Vector3.sub Vector3.zero (origin ray)).
  set (tca := Vector3.dot v (direction ray)).
  set (d2 := Vector3.dot v v - tca * tca).
  assert (Htca : tca = - Vector3.dot (origin ray) (direction ray)).
  { unfold tca, v. destruct ray as [[ox oy oz] [dx dy dz]].
    unfold Vector3.dot, Vector3.sub, Vector3.zero. simpl. ring. }
  assert (Hd2 : d2 = Vector3.lengthSq (origin ray) - tca * tca).
  { unfold d2, v. destruct ray as [[ox oy oz] [dx dy dz]].
    unfold Vector3.lengthSq, Vector3.dot, Vector3.sub, Vector3.zero. simpl. ring. }
  rewrite lengthSq_Ray_at, Hu in Hin.
  assert (Hdot : Vector3.dot (origin ray) (direction ray) = - tca) by lra.
  rewrite Hdot in Hin.
  assert (Hin' : d2 + (t - tca) * (t - tca) < radius * radius) by (rewrite Hd2; lra).
  pose proof (Rle_0_sqr (t - tca)) as Hsq. unfold Rsqr in Hsq.
  destruct (Rlt_dec d2 (radius * radius)) as [Hlt | Hge]; [| exfalso; lra].
  set (thc := sqrt (radius * radius - d2)).
  assert (Hthc : thc * thc = radius * radius - d2) by (apply sqrt_sqrt; lra).
  assert (Hthc0 : 0 <= thc) by apply sqrt_pos.
  destruct (Rle_dec 0 (tca - thc)) as [_ | Hneg]; [discriminate |].
  exfalso.
  assert (H1 : (t - tca) * (t - tca) < thc * thc) by lra.
  assert (H2 : thc * thc < tca * tca) by (rewrite Hthc, Hd2; lra).
  assert (H3 : t - tca < thc) by nra.
  assert (H4 : tca < thc) by lra.
  assert (H5 : tca < - thc) by nra.
  lra.
Qed.


(** ** Reaching a drag *)

Lemma reachable_facing_new (D : R) : reachable (facing_new D).
Proof. apply reachable_step; [apply reachable_editing_new | exact I]. Qed.

Lemma reachable_pressed (D : R) : 0 <= D -> reachable (pressed D).
Proof.
  intros HD.
  apply reachable_step; [apply reachable_facing_new | apply under_cursor_receivable, HD].
Qed.

Lemma reachable_dragging_new : reachable dragging_new.
Proof. apply reachable_pressed. lra. Qed.

Lemma camera_at_5 : camera_at 5 = Vector3.mk (-3771 / 1250) (23 / 100) (-3).
Proof.
  unfold camera_at, ring_point, cursor_direction, Vector3.sub, Vector3.multiplyScalar.
  simpl. f_equal; lra.
Qed.

(** The ray under the cursor of the outer camera enters the proxy sphere. *)
Lemma cursor_ray_enters :
  exists p, intersectObject (cursor_ray 5) proxy_radius = [p] /\
            p <> Vector3.mk 0 (2 / 10) 1.
Proof.
  destruct (intersectObject (cursor_ray 5) proxy_radius) as [| p rest] eqn:E.
  - exfalso. revert E.
    apply (intersectObject_reports (cursor_ray 5) proxy_radius 5 cursor_direction_unit).
    + unfold proxy_radius, Vector3.lengthSq, Vector3.dot, cursor_ray, camera_at, ring_point,
        cursor_direction, Vector3.sub, Vector3.multiplyScalar. simpl. lra.
    + lra.
    + unfold proxy_radius, Vector3.lengthSq, Vector3.dot, Ray_at, cursor_ray, camera_at,
        ring_point, cursor_direction, Vector3.sub, Vector3.add, Vector3.multiplyScalar.
      simpl. lra.
  - destruct (intersectObject_first_point (cursor_ray 5) proxy_radius p rest
                cursor_direction_unit E) as (-> & t & _ & _ & Hp & _).
    exists p. split; [reflexivity |]. intros ->.
    unfold proxy_radius, Vector3.lengthSq, Vector3.dot in Hp. simpl in Hp. lra.
Qed.

(** C7, at the events of [abandoned_drag]: the add button, an orbit to the
    far side of the coin, a mouse-down on the ring of the new marker, and the
    Cancel button.  Each event can be received (the mouse-down is what the ray
    cast from the camera gives), so the state is reachable; a drag is in
    progress on record 1 and no editor is open: [closeEditModal] does not end
    the drag, the controls stay disabled, and the next mouse-move, along the
    same ray, still moves record 1. *)
Theorem drag_survives_cancel :
  drag_abandoned = run_events abandoned_drag initial /\
  receivable_run initial abandoned_drag /\
  reachable drag_abandoned /\
  isDragging drag_abandoned = true /\
  draggedAnnotationIndex drag_abandoned = Some 1%Z /\
  currentEditIndex drag_abandoned = None /\
  controls_enabled drag_abandoned = false /\
  origin (cursor_ray 5) = camera_position drag_abandoned /\
  heap drag_abandoned 1%nat = Vector3.mk 0 (2 / 10) 1 /\
  heap (state_of (onMouseMove (cursor_ray 5) drag_abandoned)) 1%nat
  <> Vector3.mk 0 (2 / 10) 1.
Proof.
  assert (Hr : receivable_run initial abandoned_drag).
  { simpl. split; [exact I |]. split; [exact I |]. split; [| split; exact I].
    apply (under_cursor_receivable 5). lra. }
  split; [reflexivity |]. split; [exact Hr |].
  split; [exact (reachable_run abandoned_drag initial reachable_initial Hr) |].
  repeat (split; [reflexivity |]).
  destruct cursor_ray_enters as (p & E & Hp).
  unfold onMouseMove. rewrite E. exact Hp.
Qed.

(** ** Position vectors are never shared *)

Lemma cut_incl {A : Type} (l : list A) (k : nat) (x : A) :
  In x (firstn k l ++ skipn (S k) l) -> In x l.
Proof.
  revert k. induction l as [| a l IH]; intros k.
  - rewrite firstn_nil, skipn_nil. simpl. tauto.
  - destruct k as [| k]; simpl.
    + auto.
    + intros [E | H]; [auto | right; eauto].
Qed.

Lemma NoDup_cut {A : Type} (l : list A) (k : nat) :
  NoDup l -> NoDup (firstn k l ++ skipn (S k) l).
Proof.
  revert k. induction l as [| a l IH]; intros k H.
  - rewrite firstn_nil, skipn_nil. constructor.
  - inversion H as [| ? ? Hn Hl]; subst. destruct k as [| k]; simpl.
    + exact Hl.
    + constructor; [| apply IH, Hl].
      intros Hin. apply Hn. eapply cut_incl, Hin.
Qed.

Lemma Forall_cut {A : Type} (P : A -> Prop) (l : list A) (k : nat) :
  Forall P l -> Forall P (firstn k l ++ skipn (S k) l).
Proof.
  rewrite !Forall_forall. intros H x Hx. eapply H, cut_incl, Hx.
Qed.

Lemma splice1_positions (l : list Annotation) (i : Z) :
  exists k, map position (splice1 l i)
            = firstn k (map position l) ++ skipn (S k) (map position l).
Proof.
  unfold splice1. eexists. rewrite map_app, firstn_map, skipn_map. reflexivity.
Qed.

Lemma list_set_positions (l : list Annotation) (n : nat) (a : Annotation)
      (f : Annotation -> Annotation) :
  nth_error l n = Some a -> position (f a) = position a ->
  map position (list_set l n f) = map position l.
Proof.
  revert n. induction l as [| b l IH]; intros [| n]; simpl; try discriminate.
  - intros [= ->] ->. reflexivity.
  - intros H E. f_equal. apply IH; assumption.
Qed.

Lemma run_frame_keeps_store (now : Z) (pending : list CameraAnimation) (s : State) :
  annotations (fst (run_frame now pending s)) = annotations s /\
  next_ref (fst (run_frame now pending s)) = next_ref s /\
  heap (fst (run_frame now pending s)) = heap s /\
  scene_children (fst (run_frame now pending s)) = scene_children s.
Proof.
  revert s. induction pending as [| a rest IH]; intros s; simpl; [auto |].
  specialize (IH (set_camera
     (Vector3.lerpVectors (startPosition a) (anim_position a) (eased (progress_at a now)))
     (Vector3.lerpVectors (startTarget a) (anim_lookAt a) (eased (progress_at a now))) s)).
  destruct (run_frame now rest _) as [s2 kept]. exact IH.
Qed.

(** How each event changes the array and the allocation mark: they stay, or
    one record goes, or one record with a fresh vector arrives. *)
Lemma step_positions (s : State) (e : Event) :
  positions_separate s -> positions_separate (step s e).
Proof.
  intros [Hn Hf]. unfold positions_separate.
  destruct e as [| form | | hits | ray | | index t0 t1 | now | p t | checked | name | index];
    simpl.
  - (* add button *)
    unfold addNewAnnotation, openEditModal.
    match goal with |- context [js_get ?l ?i] => destruct (js_get l i) end; simpl;
      rewrite map_app; simpl.
    all: split;
      [ apply NoDup_app; [exact Hn | repeat constructor; simpl; tauto |];
        intros r Hr [<- | []]; rewrite Forall_forall in Hf; specialize (Hf _ Hr); lia
      | apply Forall_app; split;
        [ eapply Forall_impl; [| exact Hf]; simpl; intros; lia
        | repeat constructor ] ].
  - (* save *)
    unfold saveEdit. destruct (currentEditIndex s) as [i |]; [| simpl; auto].
    destruct (js_get (annotations s) i) as [a |] eqn:Ha; [| simpl; auto].
    unfold updateAnnotation. rewrite Ha. simpl.
    unfold js_get in Ha. destruct (i <? 0)%Z; [discriminate |].
    rewrite (list_set_positions _ _ a) by (assumption || reflexivity). auto.
  - auto.
  - (* mouse-down *)
    unfold onMouseDown. destruct (currentEditIndex s); [| auto].
    destruct hits as [| obj rest]; [auto |].
    destruct (annotationIndex (userData_of obj)) as [k |]; [| auto].
    destruct (k =? z)%Z; simpl; auto.
  - (* mouse-move *)
    unfold onMouseMove. destruct (isDragging s); simpl; [| auto].
    destruct (draggedAnnotationIndex s) as [i |]; [| simpl; auto].
    destruct (intersectObject ray proxy_radius); [simpl; auto |].
    destruct (js_get (annotations s) i); simpl; auto.
  - (* mouse-up *)
    unfold onMouseUp. destruct (isDragging s); simpl; auto.
  - (* list item *)
    unfold focusOnAnnotation.
    destruct ((0 <=? index)%Z && (index <? Z.of_nat (List.length (annotations s)))%Z)%bool;
      [| auto].
    destruct (js_get (annotations s) index); [| auto].
    unfold animateCameraTo, animate.
    match goal with |- context [Rlt_dec ?a ?b] => destruct (Rlt_dec a b) end; simpl; auto.
  - (* display frame *)
    unfold onAnimationFrame.
    pose proof (run_frame_keeps_store now (animations s) s) as (Ea & En & _ & _).
    destruct (run_frame now (animations s) s) as [s1 kept]. simpl in *.
    rewrite Ea, En. auto.
  - auto.
  - auto.
  - auto.
  - (* delete *)
    destruct (splice1_positions (annotations s) index) as [k ->].
    split; [apply NoDup_cut | apply Forall_cut]; assumption.
Qed.

Lemma initial_positions : positions_separate initial.
Proof.
  split; simpl.
  - repeat constructor. simpl. tauto.
  - repeat constructor.
Qed.

Lemma reachable_positions (s : State) : reachable s -> positions_separate s.
Proof.
  induction 1 as [| s e _ IH _]; [apply initial_positions | apply step_positions, IH].
Qed.

Lemma separate_records (l : list Annotation) (n m : nat) (a b : Annotation) :
  NoDup (map position l) ->
  nth_error l n = Some a -> nth_error l m = Some b -> n <> m ->
  position a <> position b.
Proof.
  intros Hn Ha Hb Hd E. apply Hd.
  rewrite NoDup_nth_error in Hn. apply Hn.
  - rewrite length_map. apply nth_error_Some. congruence.
  - rewrite !nth_error_map, Ha, Hb. simpl. congruence.
Qed.

(** ** The store and the scene agree in every reachable state *)

Lemma counts_agree_same (s s' : State) :
  scene_children s' = scene_children s -> annotations s' = annotations s ->
  counts_agree s -> counts_agree s'.
Proof.
  unfold counts_agree, markers, labels, labels_on_markers_only.
  intros -> ->. tauto.
Qed.

Lemma step_counts (s : State) (e : Event) : counts_agree s -> counts_agree (step s e).
Proof.
  intros H. assert (L : labels_on_markers_only s) by apply H.
  destruct e as [| form | | hits | ray | | index t0 t1 | now | p t | checked | name | index];
    simpl.
  - (* add button *)
    unfold addNewAnnotation, openEditModal.
    match goal with |- context [js_get ?l ?i] => destruct (js_get l i) end; simpl;
      (eapply counts_agree_same; [| | apply render_counts]; [reflexivity | reflexivity |]);
      exact L.
  - (* save *)
    unfold saveEdit. destruct (currentEditIndex s) as [i |]; [| exact H].
    destruct (js_get (annotations s) i) as [a |] eqn:Ha; [| exact H].
    unfold updateAnnotation. rewrite Ha. simpl.
    eapply counts_agree_same; [| | apply render_counts]; [reflexivity | reflexivity |].
    exact L.
  - exact H.
  - (* mouse-down *)
    unfold onMouseDown. destruct (currentEditIndex s); [| exact H].
    destruct hits as [| obj rest]; [exact H |].
    destruct (annotationIndex (userData_of obj)) as [k |]; [| exact H].
    destruct (k =? z)%Z; exact H.
  - (* mouse-move *)
    unfold onMouseMove. destruct (isDragging s); simpl; [| exact H].
    destruct (draggedAnnotationIndex s) as [i |]; [| exact H].
    destruct (intersectObject ray proxy_radius); [exact H |].
    destruct (js_get (annotations s) i); simpl; [| exact H].
    apply render_counts. exact L.
  - (* mouse-up *)
    unfold onMouseUp. destruct (isDragging s); exact H.
  - (* list item *)
    unfold focusOnAnnotation.
    destruct ((0 <=? index)%Z && (index <? Z.of_nat (List.length (annotations s)))%Z)%bool;
      [| exact H].
    destruct (js_get (annotations s) index); [| exact H].
    unfold animateCameraTo, animate.
    match goal with |- context [Rlt_dec ?a ?b] => destruct (Rlt_dec a b) end; exact H.
  - (* display frame *)
    unfold onAnimationFrame.
    pose proof (run_frame_keeps_store now (animations s) s) as (Ea & _ & _ & Es).
    destruct (run_frame now (animations s) s) as [s1 kept]. simpl in *.
    eapply counts_agree_same; [| | exact H]; simpl; assumption.
  - exact H.
  - exact H.
  - (* model loaded *)
    destruct H as (M & B & _). repeat split.
    + unfold markers in *. simpl. rewrite filter_app. simpl. rewrite app_nil_r. exact M.
    + unfold labels in *. simpl. rewrite flat_map_app. simpl. rewrite app_nil_r. exact B.
    + unfold labels_on_markers_only in *. simpl. apply Forall_app. split; [exact L |].
      repeat constructor.
  - (* delete *)
    apply render_counts. exact L.
Qed.

Lemma reachable_counts (s : State) : reachable s -> counts_agree s.
Proof.
  induction 1 as [| s e _ IH _]; [apply initial_counts | apply step_counts, IH].
Qed.

(** The scene graph after the operations of the store.  From any state the
    kiosk can reach, whatever sequence of add, update and delete operations is
    run, each with the re-render it triggers, the scene graph then holds as
    many annotation markers, and as many [CSS2DObject]s, as the array has
    records. *)
Theorem store_visual_counts (s : State) (ops : list StoreOp) :
  reachable s ->
  List.length (markers (run_ops ops s)) = List.length (annotations (run_ops ops s)) /\
  List.length (labels (run_ops ops s)) = List.length (annotations (run_ops ops s)).
Proof.
  intros Hr.
  destruct (run_ops_counts ops s (reachable_counts s Hr)) as (M & B & _).
  split; assumption.
Qed.

Lemma store_visual_counts_witness :
  List.length (annotations (run_ops add_edit_delete initial)) = 1%nat /\
  List.length (markers (run_ops add_edit_delete initial)) = 1%nat /\
  List.length (labels (run_ops add_edit_delete initial)) = 1%nat.
Proof.
  destruct (store_visual_counts initial add_edit_delete reachable_initial) as [M B].
  rewrite M, B. repeat split; reflexivity.
Defined.

(** ** Labels on screen *)

(** The page runs the operations of the store as the kiosk does. *)
Lemma page_op_kiosk (p : Page) (op : StoreOp) :
  kiosk (page_op p op) = apply_op (kiosk p) op.
Proof.
  destruct op as [l r c sh d | i l r c sh d | i]; simpl; try reflexivity.
  unfold updateAnnotation. destruct (js_get (annotations (kiosk p)) i); reflexivity.
Qed.

Lemma paint_keeps (visible : Element -> bool) (l dom : list Element) :
  incl dom
       (fold_left
          (fun dom e =>
             if (visible e && negb (existsb (Nat.eqb e) dom))%bool then dom ++ [e] else dom)
          l dom).
Proof.
  revert dom. induction l as [| e l IH]; intros dom; simpl; [apply incl_refl |].
  eapply incl_tran; [| apply IH].
  destruct (visible e && negb (existsb (Nat.eqb e) dom))%bool;
    [apply incl_appl |]; apply incl_refl.
Qed.

(** C5, the labels.  No operation of the store and no frame takes a label
    element off the overlay; and with a frame painted before the first and
    after each of the operations add, update, update at an index past the
    end, delete, the kiosk holds 1, 2, 2, 2 and 1 records, as many markers,
    and 1, 3, 5, 5 and 6 labels on screen. *)
Theorem labels_outnumber_records (p : Page) (e : PageEvent) :
  incl (overlay p) (overlay (page_step p e)) /\
  map (fun n => census (painted_after n)) [0; 1; 2; 3; 4]%nat
  = [(1, 1, 1); (2, 2, 3); (2, 2, 5); (2, 2, 5); (1, 1, 6)]%nat.
Proof.
  split.
  - destruct e as [op | visible]; simpl.
    + destruct op as [l r c sh d | i l r c sh d | i]; simpl; try apply incl_refl.
      destruct (js_get (annotations (kiosk p)) i); apply incl_refl.
    + apply paint_keeps.
  - reflexivity.
Qed.

(** ** Dragging *)

(** C6.  In any state the kiosk can reach, with a drag in progress on
    record [i], a mouse-move leaves the array of records as it was (so the
    label, description, colour and shape of every record, and the vector each
    record points to), and the coordinates of the position of every record
    other than [i] are what they were: only the position vector of record
    [i] can change. *)
Theorem drag_moves_dragged_record_only (s : State) (ray : Ray) (i : Z) :
  reachable s ->
  isDragging s = true ->
  draggedAnnotationIndex s = Some i ->
  annotations (state_of (onMouseMove ray s)) = annotations s /\
  forall j b, j <> i -> js_get (annotations s) j = Some b ->
              heap (state_of (onMouseMove ray s)) (position b) = heap s (position b).
Proof.
  intros Hr Hd Hi. apply reachable_positions in Hr as [Hn _].
  unfold onMouseMove. rewrite Hd, Hi. simpl.
  destruct (intersectObject ray proxy_radius) as [| newPosition rest]; [simpl; auto |].
  destruct (js_get (annotations s) i) as [a |] eqn:Ha; [| simpl; auto].
  simpl. split; [reflexivity |].
  intros j b Hj Hb. unfold heap_copy.
  destruct (Nat.eqb_spec (position b) (position a)) as [E | _]; [| reflexivity].
  exfalso. unfold js_get in Ha, Hb.
  destruct (Z.ltb_spec i 0); [discriminate |].
  destruct (Z.ltb_spec j 0); [discriminate |].
  apply (separate_records _ _ _ _ _ Hn Hb Ha); [lia | exact E].
Qed.

Lemma drag_moves_dragged_record_only_witness :
  isDragging dragging_new = true /\
  draggedAnnotationIndex dragging_new = Some 1%Z /\
  annotations (state_of (onMouseMove (cursor_ray 5) dragging_new))
  = annotations dragging_new /\
  heap (state_of (onMouseMove (cursor_ray 5) dragging_new)) 0%nat
  = heap dragging_new 0%nat.
Proof.
  split; [reflexivity |]. split; [reflexivity |].
  destruct (drag_moves_dragged_record_only dragging_new (cursor_ray 5) 1
              reachable_dragging_new eq_refl eq_refl) as [Ha Hh].
  split; [exact Ha |].
  exact (Hh 0%Z initial_annotation ltac:(lia) eq_refl).
Defined.





(* ================================================================== *)
(** * Further properties *)

(** ** The renderer *)

Lemma filter_twice {A : Type} (f : A -> bool) (l : list A) :
  filter f (filter f l) = filter f l.
Proof.
  induction l as [| a l IH]; simpl; [reflexivity |].
  destruct (f a) eqn:E; simpl; [rewrite E, IH; reflexivity | exact IH].
Qed.

Lemma visuals_all_tagged (cam : Vec3) (h : ref -> Vec3) (i : Z) (l : list Annotation) :
  filter (fun child => negb (tagged child)) (annotation_visuals cam h i l) = [].
Proof.
  apply filter_drops_all. eapply Forall_impl; [| apply visuals_tagged].
  simpl. intros o ->. reflexivity.
Qed.

Lemma render_other_children (s : State) :
  filter (fun child => negb (tagged child)) (scene_children (renderAnnotations s))
  = filter (fun child => negb (tagged child)) (scene_children s).
Proof.
  unfold renderAnnotations. simpl.
  rewrite filter_app, filter_twice, visuals_all_tagged. apply app_nil_r.
Qed.

(** X2.  A re-render keeps every child of the scene that is not an
    annotation visual (the lights, the coin), in the order they were in, and
    puts the annotation visuals behind them. *)
Theorem render_keeps_other_children (s : State) :
  scene_children (renderAnnotations s)
  = filter (fun child => negb (tagged child)) (scene_children s)
    ++ annotation_visuals_of (renderAnnotations s).
Proof.
  rewrite render_visuals. reflexivity.
Qed.

(** X1.  Rendering twice in a row gives the state that rendering once
    gives: a re-render leaves nothing behind that a second one would treat
    differently. *)
Theorem render_twice_is_render_once (s : State) :
  renderAnnotations (renderAnnotations s) = renderAnnotations s.
Proof.
  unfold renderAnnotations at 1. unfold set_scene_children.
  rewrite render_other_children.
  reflexivity.
Qed.

Lemma visuals_nth_marker (cam : Vec3) (h : ref -> Vec3) (from : Z) (l : list Annotation)
      (k : nat) :
  nth_error (filter is_marker (annotation_visuals cam h from l)) k
  = option_map (make_marker cam h (from + Z.of_nat k)) (nth_error l k).
Proof.
  revert from k. induction l as [| a l IH]; intros from k; simpl.
  - destruct k; reflexivity.
  - destruct k as [| k]; simpl.
    + rewrite Z.add_0_r. reflexivity.
    + rewrite IH. replace (from + 1 + Z.of_nat k)%Z with (from + Z.pos (Pos.of_succ_nat k))%Z
        by lia. reflexivity.
Qed.



Lemma visuals_without_shape (cam : Vec3) (h1 h2 : ref -> Vec3) (i : Z)
      (l1 l2 : list Annotation) :
  map (fun a => (h1 (position a), label a, description a, color a)) l1
  = map (fun a => (h2 (position a), label a, description a, color a)) l2 ->
  annotation_visuals cam h1 i l1 = annotation_visuals cam h2 i l2.
Proof.
  revert i l2. induction l1 as [| a l1 IH]; intros i [| b l2] H; simpl in *;
    try discriminate; [reflexivity |].
  injection H as Hp Hl Hd Hc Hrest.
  unfold make_marker, make_line. rewrite Hp, Hl, Hd, Hc.
  f_equal. f_equal. apply IH, Hrest.
Qed.

(** X4.  The shape of a record reaches no visual: two arrays whose records
    agree in position, label, description and colour render to the same
    annotation visuals under the same camera, whatever their shapes. *)
Theorem render_ignores_shape (s1 s2 : State) :
  map (fun a => (heap s1 (position a), label a, description a, color a)) (annotations s1)
  = map (fun a => (heap s2 (position a), label a, description a, color a)) (annotations s2) ->
  camera_position s1 = camera_position s2 ->
  annotation_visuals_of (renderAnnotations s1)
  = annotation_visuals_of (renderAnnotations s2).
Proof.
  intros H Hc. rewrite !render_visuals, Hc. apply visuals_without_shape, H.
Qed.

Lemma render_ignores_shape_witness :
  map shape (annotations initial) = ["sphere"] /\
  map shape (annotations
               (updateAnnotation 0 "Imperial Inscription" 0%nat default_color "cone"
                  (description initial_annotation) initial)) = ["cone"] /\
  annotation_visuals_of (renderAnnotations initial)
  = annotation_visuals_of
      (renderAnnotations
         (updateAnnotation 0 "Imperial Inscription" 0%nat default_color "cone"
            (description initial_annotation) initial)).
Proof.
  split; [reflexivity |]. split; [reflexivity |].
  apply (render_ignores_shape initial
           (updateAnnotation 0 "Imperial Inscription" 0%nat default_color "cone"
              (description initial_annotation) initial)); reflexivity.
Defined.

(** ** The store *)

Lemma splice1_in_range {A : Type} (l : list A) (i : Z) :
  (0 <= i < Z.of_nat (List.length l))%Z ->
  splice1 l i = firstn (Z.to_nat i) l ++ skipn (S (Z.to_nat i)) l.
Proof.
  intros H. unfold splice1. destruct (Z.ltb_spec i 0); [lia |].
  rewrite Z.min_l by lia. reflexivity.
Qed.

Lemma nth_error_cut {A : Type} (l : list A) (k j : nat) :
  nth_error (firstn k l ++ skipn (S k) l) j
  = if (j <? k)%nat then nth_error l j else nth_error l (S j).
Proof.
  revert k j. induction l as [| a l IH]; intros k j.
  - rewrite firstn_nil, skipn_nil. simpl.
    destruct (j <? k)%nat; destruct j; reflexivity.
  - destruct k as [| k]; simpl.
    + reflexivity.
    + destruct j as [| j]; simpl; [reflexivity |].
      rewrite IH. reflexivity.
Qed.

(** X5.  A delete at the index of a record removes that record and no
    other: the array is one shorter, the records before the index stay where
    they were, and every record behind it moves one place down. *)
Theorem deleteAnnotation_shifts_down (s : State) (i : Z) :
  (0 <= i < Z.of_nat (List.length (annotations s)))%Z ->
  S (List.length (annotations (deleteAnnotation i s))) = List.length (annotations s) /\
  (forall j, (j < i)%Z ->
             js_get (annotations (deleteAnnotation i s)) j = js_get (annotations s) j) /\
  (forall j, (i <= j)%Z ->
             js_get (annotations (deleteAnnotation i s)) j
             = js_get (annotations s) (j + 1)).
Proof.
  intros H. unfold deleteAnnotation. simpl. rewrite (splice1_in_range _ _ H).
  split; [| split].
  - rewrite length_app, length_firstn, length_skipn. lia.
  - intros j Hj. unfold js_get. destruct (Z.ltb_spec j 0); [reflexivity |].
    rewrite nth_error_cut.
    destruct (Nat.ltb_spec (Z.to_nat j) (Z.to_nat i)); [reflexivity | lia].
  - intros j Hj. unfold js_get.
    destruct (Z.ltb_spec j 0); [lia |]. destruct (Z.ltb_spec (j + 1) 0); [lia |].
    rewrite nth_error_cut.
    destruct (Nat.ltb_spec (Z.to_nat j) (Z.to_nat i)); [lia |].
    replace (Z.to_nat (j + 1)) with (S (Z.to_nat j)) by lia. reflexivity.
Qed.

Lemma deleteAnnotation_shifts_down_witness :
  List.length (annotations (deleteAnnotation 0 editing_new)) = 1%nat /\
  js_get (annotations (deleteAnnotation 0 editing_new)) 0
  = js_get (annotations editing_new) 1.
Proof.
  destruct (deleteAnnotation_shifts_down editing_new 0) as (L & _ & M).
  - change (0 <= 0 < 2)%Z. lia.
  - split; [| apply (M 0%Z); lia].
    change (List.length (annotations editing_new)) with 2%nat in L. lia.
Defined.

Lemma cut_last {A : Type} (l : list A) (a : A) :
  firstn (List.length l) (l ++ [a]) ++ skipn (S (List.length l)) (l ++ [a]) = l.
Proof.
  induction l as [| b l IH]; simpl; [reflexivity |].
  f_equal. exact IH.
Qed.

(** X6.  Adding a record and then deleting at the index it got gives the
    state that a plain re-render gives: the array, the scene and everything
    else are as if nothing had been added. *)
Theorem add_then_delete_is_render (l : string) (p : ref) (c sh d : string) (s : State) :
  deleteAnnotation (Z.of_nat (List.length (annotations s))) (addAnnotation l p c sh d s)
  = renderAnnotations s.
Proof.
  unfold deleteAnnotation, addAnnotation.
  unfold renderAnnotations at 1. unfold set_scene_children, set_annotations at 1.
  cbn [heap next_ref annotations scene_children camera_position controls_target
       controls_enabled currentEditIndex isDragging draggedAnnotationIndex
       modal_visible animations renderAnnotations set_scene_children set_annotations].
  assert (E : splice1 (annotations s ++ [mkAnnotation p l (Some d) c sh])
                      (Z.of_nat (List.length (annotations s))) = annotations s).
  { rewrite splice1_in_range by (rewrite length_app; simpl; lia).
    rewrite Nat2Z.id. apply cut_last. }
  rewrite E, filter_app, filter_twice, visuals_all_tagged, app_nil_r.
  reflexivity.
Qed.

Lemma list_set_js_get {A : Type} (l : list A) (i j : Z) (f : A -> A) :
  (0 <= i)%Z -> j <> i ->
  js_get (list_set l (Z.to_nat i) f) j = js_get l j.
Proof.
  intros Hi Hj. unfold js_get. destruct (Z.ltb_spec j 0); [reflexivity |].
  apply list_set_nth_other. lia.
Qed.

(** X7.  An update at the index of a record writes the five fields into
    that record and leaves every other record, and the length of the array,
    as they were. *)
Theorem updateAnnotation_writes_one_record
        (s : State) (i : Z) (a : Annotation) (l : string) (p : ref) (c sh : string)
        (d : option string) :
  js_get (annotations s) i = Some a ->
  js_get (annotations (updateAnnotation i l p c sh d s)) i
  = Some (mkAnnotation p l d c sh) /\
  (forall j, j <> i ->
             js_get (annotations (updateAnnotation i l p c sh d s)) j
             = js_get (annotations s) j) /\
  List.length (annotations (updateAnnotation i l p c sh d s))
  = List.length (annotations s).
Proof.
  intros Ha. pose proof (js_get_in_range _ _ _ Ha) as Hr.
  split; [| split; [| apply updateAnnotation_length]].
  - unfold updateAnnotation. rewrite Ha. simpl.
    unfold js_get in *. destruct (i <? 0)%Z; [discriminate |].
    exact (list_set_nth_same (annotations s) (Z.to_nat i)
             (fun _ => mkAnnotation p l d c sh) a Ha).
  - intros j Hj. unfold updateAnnotation. rewrite Ha. simpl.
    apply list_set_js_get; [lia | exact Hj].
Qed.

Lemma updateAnnotation_writes_one_record_witness :
  js_get (annotations (updateAnnotation 1 "Gate" 1%nat "#ff0000" "cube" None editing_new)) 1
  = Some (mkAnnotation 1%nat "Gate" None "#ff0000" "cube") /\
  js_get (annotations (updateAnnotation 1 "Gate" 1%nat "#ff0000" "cube" None editing_new)) 0
  = Some initial_annotation.
Proof.
  destruct (updateAnnotation_writes_one_record editing_new 1
              (mkAnnotation 1%nat "Annotation 2"
                 (Some "Add your annotation description here.") default_color "sphere")
              "Gate" 1%nat "#ff0000" "cube" None eq_refl) as (H1 & H2 & _).
  split; [exact H1 |]. rewrite (H2 0%Z) by lia. reflexivity.
Defined.

(** ** The add button *)

Lemma js_get_app_left {A : Type} (l : list A) (extra : list A) (j : Z) (a : A) :
  js_get l j = Some a -> js_get (l ++ extra) j = Some a.
Proof.
  unfold js_get. destruct (j <? 0)%Z; [discriminate |]. intros H.
  rewrite nth_error_app1; [exact H |]. apply nth_error_Some. congruence.
Qed.

Lemma js_get_last {A : Type} (l : list A) (a : A) :
  js_get (l ++ [a]) (Z.of_nat (List.length (l ++ [a])) - 1) = Some a.
Proof.
  unfold js_get. rewrite length_app. simpl.
  destruct (Z.ltb_spec (Z.of_nat (List.length l + 1) - 1) 0); [lia |].
  replace (Z.to_nat (Z.of_nat (List.length l + 1) - 1)) with (List.length l) by lia.
  rewrite nth_error_app2, Nat.sub_diag by lia. reflexivity.
Qed.

(** [addNewAnnotation] always finds the record it has just added, so it
    never stops at the exception of [openEditModal]. *)
Lemma addNewAnnotation_runs (s : State) :
  addNewAnnotation s
  = Done (set_edit (Some (Z.of_nat (List.length (annotations s)))) true
            (addAnnotation
               (String.append "Annotation "
                  (string_of_nat (List.length (annotations s) + 1)%nat))
               (next_ref s) default_color "sphere"
               "Add your annotation description here."
               (set_next_ref (S (next_ref s))
                  (set_heap (heap_copy (heap s) (next_ref s) (Vector3.mk 0 (2 / 10) 1)) s)))).
Proof.
  unfold addNewAnnotation, openEditModal. cbv zeta.
  unfold addAnnotation at 1 2. cbn [annotations renderAnnotations set_annotations
    set_scene_children set_next_ref set_heap].
  rewrite js_get_last.
  do 3 f_equal.
  unfold addAnnotation. cbn [annotations renderAnnotations set_annotations
    set_scene_children set_next_ref set_heap].
  rewrite length_app. simpl. lia.
Qed.

(** X8.  In any state the kiosk can reach, a click on the add button runs
    to its end; the array gets one more record at its end, labelled with the
    new length, at position (0, 0.2, 1) on a vector of its own; every record
    that was there keeps its fields and its coordinates; and the editor is
    open on the new record. *)
Theorem addNewAnnotation_appends (s : State) :
  reachable s ->
  exists s' r,
    addNewAnnotation s = Done s' /\
    annotations s'
    = annotations s
      ++ [mkAnnotation r
            (String.append "Annotation "
               (string_of_nat (List.length (annotations s) + 1)%nat))
            (Some "Add your annotation description here.") default_color "sphere"] /\
    heap s' r = Vector3.mk 0 (2 / 10) 1 /\
    (forall j a, js_get (annotations s) j = Some a ->
                 js_get (annotations s') j = Some a /\
                 heap s' (position a) = heap s (position a)) /\
    currentEditIndex s' = Some (Z.of_nat (List.length (annotations s))) /\
    modal_visible s' = true.
Proof.
  intros Hr. apply reachable_positions in Hr as [_ Hf].
  eexists. exists (next_ref s). split; [apply addNewAnnotation_runs |].
  split; [reflexivity |]. split.
  { simpl. unfold heap_copy. rewrite Nat.eqb_refl. reflexivity. }
  split; [| split; reflexivity].
  intros j a Ha. split.
  - simpl. apply js_get_app_left, Ha.
  - simpl. unfold heap_copy.
    destruct (Nat.eqb_spec (position a) (next_ref s)) as [E | _]; [| reflexivity].
    exfalso. rewrite Forall_forall in Hf.
    assert (Hin : In (position a) (map position (annotations s))).
    { apply in_map. unfold js_get in Ha. destruct (j <? 0)%Z; [discriminate |].
      eapply nth_error_In, Ha. }
    specialize (Hf _ Hin). lia.
Qed.

Lemma addNewAnnotation_appends_witness :
  exists s',
    addNewAnnotation editing_new = Done s' /\
    List.length (annotations s') = 3%nat /\
    js_get (annotations s') 0 = Some initial_annotation /\
    currentEditIndex s' = Some 2%Z.
Proof.
  destruct (addNewAnnotation_appends editing_new reachable_editing_new)
    as (s' & r & Hd & Ha & _ & Hold & He & _).
  exists s'. split; [exact Hd |]. split; [| split].
  - rewrite Ha, length_app. reflexivity.
  - apply (Hold 0%Z initial_annotation). reflexivity.
  - exact He.
Defined.

(** ** What holds in every reachable state *)

Lemma scene_shows_same (s s' : State) :
  annotation_visuals_of s' = annotation_visuals_of s ->
  heap s' = heap s -> annotations s' = annotations s ->
  scene_shows_array s -> scene_shows_array s'.
Proof.
  unfold scene_shows_array. intros -> -> ->. tauto.
Qed.

Lemma render_shows (s : State) : scene_shows_array (renderAnnotations s).
Proof. exists (camera_position s). exact (render_visuals s). Qed.

Lemma step_scene_shows (s : State) (e : Event) :
  scene_shows_array s -> scene_shows_array (step s e).
Proof.
  intros H.
  destruct e as [| form | | hits | ray | | index t0 t1 | now | p t | checked | name | index];
    simpl.
  - rewrite addNewAnnotation_runs. unfold addAnnotation. simpl.
    eapply scene_shows_same; cycle 3; [apply render_shows | reflexivity ..].
  - unfold saveEdit. destruct (currentEditIndex s) as [i |]; [| exact H].
    destruct (js_get (annotations s) i) as [a |] eqn:Ha; [| exact H].
    unfold updateAnnotation. rewrite Ha. simpl.
    eapply scene_shows_same; cycle 3; [apply render_shows | reflexivity ..].
  - exact H.
  - unfold onMouseDown. destruct (currentEditIndex s); [| exact H].
    destruct hits as [| obj rest]; [exact H |].
    destruct (annotationIndex (userData_of obj)) as [k |]; [| exact H].
    destruct (k =? z)%Z; exact H.
  - unfold onMouseMove. destruct (isDragging s); simpl; [| exact H].
    destruct (draggedAnnotationIndex s) as [i |]; [| exact H].
    destruct (intersectObject ray proxy_radius); [exact H |].
    destruct (js_get (annotations s) i); simpl; [| exact H].
    apply render_shows.
  - unfold onMouseUp. destruct (isDragging s); exact H.
  - unfold focusOnAnnotation.
    destruct ((0 <=? index)%Z && (index <? Z.of_nat (List.length (annotations s)))%Z)%bool;
      [| exact H].
    destruct (js_get (annotations s) index); [| exact H].
    unfold animateCameraTo, animate.
    match goal with |- context [Rlt_dec ?a ?b] => destruct (Rlt_dec a b) end; exact H.
  - unfold onAnimationFrame.
    pose proof (run_frame_keeps_store now (animations s) s) as (Ea & _ & Eh & Es).
    destruct (run_frame now (animations s) s) as [s1 kept]. simpl in *.
    eapply scene_shows_same; [| | | exact H]; simpl; try assumption.
    unfold annotation_visuals_of. simpl. rewrite Es. reflexivity.
  - exact H.
  - exact H.
  - eapply scene_shows_same; [| | | exact H]; try reflexivity.
    unfold annotation_visuals_of. simpl. rewrite filter_app. simpl. apply app_nil_r.
  - apply render_shows.
Qed.

Lemma reachable_scene_shows (s : State) : reachable s -> scene_shows_array s.
Proof.
  induction 1 as [| s e _ IH _]; [apply render_shows | apply step_scene_shows, IH].
Qed.

Lemma markers_among_tagged (l : list Object3D) :
  filter is_marker l = filter is_marker (filter tagged l).
Proof.
  induction l as [| o l IH]; simpl; [reflexivity |].
  destruct (tagged o) eqn:T; simpl.
  - rewrite IH. reflexivity.
  - destruct (is_marker o) eqn:M; [| exact IH].
    apply marker_is_tagged in M. congruence.
Qed.

Lemma visuals_length (cam : Vec3) (h : ref -> Vec3) (from : Z) (l : list Annotation) :
  List.length (annotation_visuals cam h from l) = (2 * List.length l)%nat.
Proof.
  revert from. induction l as [| a l IH]; intros from; simpl; [reflexivity |].
  rewrite IH. lia.
Qed.

(** X9.  In any state the kiosk can reach, the tagged children of the scene
    graph are exactly what a re-render builds from the array as it is now,
    for some position of the camera: for each record, in the order of the
    array, its marker and then its connecting line, two objects per record
    and no other; marker [i] is the one of record [i], at the current position
    of the record.  No handler leaves a marker or a line of an earlier render
    in the scene graph.  (The label elements on the overlay are another
    matter: they are the [overlay] of a [Page].) *)
Theorem scene_follows_array (s : State) :
  reachable s ->
  exists cam,
    annotation_visuals_of s = annotation_visuals cam (heap s) 0 (annotations s) /\
    List.length (annotation_visuals_of s) = (2 * List.length (annotations s))%nat /\
    forall i a, js_get (annotations s) i = Some a ->
                js_get (markers s) i = Some (make_marker cam (heap s) i a).
Proof.
  intros Hr. apply reachable_scene_shows in Hr as [cam Hc].
  exists cam. split; [exact Hc |]. split.
  - rewrite Hc. apply visuals_length.
  - intros i a. unfold js_get. destruct (Z.ltb_spec i 0); [discriminate |]. intros Ha.
    unfold markers. rewrite markers_among_tagged.
    unfold annotation_visuals_of in Hc. rewrite Hc, visuals_nth_marker, Ha. simpl.
    rewrite Z2Nat.id by lia. reflexivity.
Qed.

Lemma reachable_busy_kiosk : reachable busy_kiosk.
Proof. apply reachable_step; [apply reachable_dragging_new | exact I]. Qed.

Lemma scene_follows_array_witness :
  exists cam,
    annotation_visuals_of busy_kiosk
    = annotation_visuals cam (heap busy_kiosk) 0 (annotations busy_kiosk) /\
    List.length (annotation_visuals_of busy_kiosk) = 4%nat.
Proof.
  destruct (scene_follows_array busy_kiosk reachable_busy_kiosk) as (cam & H1 & H2 & _).
  exists cam. split; [exact H1 | exact H2].
Defined.

Lemma flags_agree_same (s s' : State) :
  isDragging s' = isDragging s ->
  draggedAnnotationIndex s' = draggedAnnotationIndex s ->
  modal_visible s' = modal_visible s ->
  currentEditIndex s' = currentEditIndex s ->
  flags_agree s -> flags_agree s'.
Proof.
  unfold flags_agree. intros -> -> -> ->. tauto.
Qed.

Lemma step_flags (s : State) (e : Event) : flags_agree s -> flags_agree (step s e).
Proof.
  intros H. pose proof H as (Hd & Hm & He & Hi).
  destruct e as [| form | | hits | ray | | index t0 t1 | now | p t | checked | name | index];
    simpl.
  - rewrite addNewAnnotation_runs. simpl. unfold flags_agree. simpl.
    split; [exact Hd |]. split; [split; congruence |].
    split; [intros e [= <-]; lia | exact Hi].
  - unfold saveEdit. destruct (currentEditIndex s) as [i |] eqn:Ei; [| exact H].
    destruct (js_get (annotations s) i) as [a |] eqn:Ha; [| exact H].
    unfold updateAnnotation. rewrite Ha. simpl. unfold flags_agree. simpl.
    split; [exact Hd |]. split; [split; congruence |].
    split; [discriminate | exact Hi].
  - unfold flags_agree. simpl.
    split; [exact Hd |]. split; [split; congruence |].
    split; [discriminate | exact Hi].
  - unfold onMouseDown. destruct (currentEditIndex s) as [z |] eqn:Ez; [| exact H].
    destruct hits as [| obj rest]; [exact H |].
    destruct (annotationIndex (userData_of obj)) as [k |]; [| exact H].
    destruct (k =? z)%Z; [| exact H].
    unfold flags_agree. simpl. rewrite Ez.
    split; [split; congruence |]. split; [exact Hm |].
    split; [exact He | intros i [= <-]; apply He; reflexivity].
  - unfold onMouseMove. destruct (isDragging s) eqn:Dr; simpl; [| exact H].
    destruct (draggedAnnotationIndex s) as [i |] eqn:Di; [| exact H].
    destruct (intersectObject ray proxy_radius); [exact H |].
    destruct (js_get (annotations s) i); simpl; [| exact H].
    eapply flags_agree_same; [| | | | exact H]; simpl; congruence.
  - unfold onMouseUp. destruct (isDragging s) eqn:Dr; [| exact H].
    unfold flags_agree. simpl.
    split; [split; congruence |]. split; [exact Hm |].
    split; [exact He | discriminate].
  - unfold focusOnAnnotation.
    destruct ((0 <=? index)%Z && (index <? Z.of_nat (List.length (annotations s)))%Z)%bool;
      [| exact H].
    destruct (js_get (annotations s) index); [| exact H].
    unfold animateCameraTo, animate.
    match goal with |- context [Rlt_dec ?a ?b] => destruct (Rlt_dec a b) end; exact H.
  - unfold onAnimationFrame.
    assert (K : forall pending st,
               isDragging (fst (run_frame now pending st)) = isDragging st /\
               draggedAnnotationIndex (fst (run_frame now pending st))
               = draggedAnnotationIndex st /\
               modal_visible (fst (run_frame now pending st)) = modal_visible st /\
               currentEditIndex (fst (run_frame now pending st)) = currentEditIndex st).
    { induction pending as [| a rest IH]; intros st; simpl; [auto |].
      specialize (IH (set_camera
        (Vector3.lerpVectors (startPosition a) (anim_position a) (eased (progress_at a now)))
        (Vector3.lerpVectors (startTarget a) (anim_lookAt a) (eased (progress_at a now)))
        st)).
      destruct (run_frame now rest _) as [s2 kept]. exact IH. }
    specialize (K (animations s) s).
    destruct (run_frame now (animations s) s) as [s1 kept]. simpl in *.
    destruct K as (K1 & K2 & K3 & K4).
    eapply flags_agree_same; [| | | | exact H]; simpl; assumption.
  - exact H.
  - exact H.
  - exact H.
  - exact H.
Qed.

Lemma initial_flags : flags_agree initial.
Proof.
  unfold flags_agree. simpl. repeat split; congruence.
Qed.

(** X10.  In any state the kiosk can reach, the flags of the controller
    agree: a drag is in progress exactly when a dragged index is set, the
    modal is shown exactly when an index is open in the editor, and neither
    index is ever negative. *)
Theorem controller_flags_agree (s : State) :
  reachable s ->
  (isDragging s = true <-> draggedAnnotationIndex s <> None) /\
  (modal_visible s = true <-> currentEditIndex s <> None) /\
  (forall e, currentEditIndex s = Some e -> (0 <= e)%Z) /\
  (forall i, draggedAnnotationIndex s = Some i -> (0 <= i)%Z).
Proof.
  induction 1 as [| s e _ IH _]; [apply initial_flags | apply step_flags, IH].
Qed.

Lemma controller_flags_agree_witness :
  (isDragging busy_kiosk = true <-> draggedAnnotationIndex busy_kiosk <> None) /\
  (modal_visible busy_kiosk = true <-> currentEditIndex busy_kiosk <> None).
Proof.
  destruct (controller_flags_agree busy_kiosk reachable_busy_kiosk) as (H1 & H2 & _).
  split; assumption.
Defined.

(** X11.  In any state the kiosk can reach, two different records never
    point to the same position vector, so moving one record in place cannot
    move another. *)
Theorem records_never_share_position (s : State) (i j : Z) (a b : Annotation) :
  reachable s ->
  js_get (annotations s) i = Some a ->
  js_get (annotations s) j = Some b ->
  i <> j ->
  position a <> position b.
Proof.
  intros Hr Ha Hb Hd. apply reachable_positions in Hr as [Hn _].
  unfold js_get in Ha, Hb.
  destruct (Z.ltb_spec i 0); [discriminate |].
  destruct (Z.ltb_spec j 0); [discriminate |].
  apply (separate_records _ _ _ _ _ Hn Ha Hb). lia.
Qed.

Lemma records_never_share_position_witness :
  position initial_annotation
  <> position (mkAnnotation 1%nat "Annotation 2"
                 (Some "Add your annotation description here.") default_color "sphere").
Proof.
  apply (records_never_share_position busy_kiosk 0 1 _ _ reachable_busy_kiosk
           eq_refl eq_refl).
  lia.
Defined.

(** ** Drag gestures *)

(** X12.  A whole drag gesture on the record in the editor: a mouse-down
    whose nearest hit is the marker of that record, a mouse-move whose ray
    the proxy sphere reports, and a mouse-up.  Afterwards the record sits at
    the reported point, the array is otherwise as it was, no drag is in
    progress, the editor is still open on the record, and the orbit controls
    are enabled, whatever they were before. *)
Theorem drag_gesture (s : State) (e : Z) (a : Annotation) (obj : Object3D)
        (others : list Object3D) (ray : Ray) (p : Vec3) (rest : list Vec3) :
  currentEditIndex s = Some e ->
  js_get (annotations s) e = Some a ->
  annotationIndex (userData_of obj) = Some e ->
  intersectObject ray proxy_radius = p :: rest ->
  heap (run_events [MouseDown (obj :: others); MouseMove ray; MouseUp] s) (position a) = p /\
  annotations (run_events [MouseDown (obj :: others); MouseMove ray; MouseUp] s)
  = annotations s /\
  isDragging (run_events [MouseDown (obj :: others); MouseMove ray; MouseUp] s) = false /\
  draggedAnnotationIndex (run_events [MouseDown (obj :: others); MouseMove ray; MouseUp] s)
  = None /\
  currentEditIndex (run_events [MouseDown (obj :: others); MouseMove ray; MouseUp] s)
  = Some e /\
  controls_enabled (run_events [MouseDown (obj :: others); MouseMove ray; MouseUp] s)
  = true.
Proof.
  intros He Ha Ho Hp. unfold run_events. simpl.
  unfold onMouseDown. rewrite He, Ho, Z.eqb_refl.
  unfold onMouseMove. simpl. rewrite Hp, Ha. simpl.
  unfold heap_copy. rewrite Nat.eqb_refl. repeat split. exact He.
Qed.

Lemma drag_gesture_witness :
  exists p,
    intersectObject (cursor_ray 5) proxy_radius = [p] /\
    heap (run_events [MouseDown (under_cursor (facing_new 5)); MouseMove (cursor_ray 5);
                      MouseUp]
                     (facing_new 5)) 1%nat
    = p /\
    controls_enabled
      (run_events [MouseDown (under_cursor (facing_new 5)); MouseMove (cursor_ray 5);
                   MouseUp]
                  (facing_new 5)) = true.
Proof.
  destruct cursor_ray_enters as (p & E & _).
  exists p. split; [exact E |].
  destruct (drag_gesture (facing_new 5) 1
              (mkAnnotation 1%nat "Annotation 2"
                 (Some "Add your annotation description here.") default_color "sphere")
              (make_marker (Vector3.mk 5 3 5) (heap editing_new) 1
                 (mkAnnotation 1%nat "Annotation 2"
                    (Some "Add your annotation description here.") default_color "sphere"))
              [make_line (heap editing_new)
                 (mkAnnotation 1%nat "Annotation 2"
                    (Some "Add your annotation description here.") default_color "sphere")]
              (cursor_ray 5) p []
              eq_refl eq_refl eq_refl E) as (H1 & _ & _ & _ & _ & H2).
  split; [exact H1 | exact H2].
Defined.

(** X13.  The position lock does not survive a drag.  With the lock box
    just checked, a mouse-down followed by a mouse-up leaves the orbit
    controls enabled exactly when a drag was in progress at the mouse-up:
    [onMouseUp] sets [controls.enabled] without asking the lock. *)
Theorem drag_lifts_position_lock (s : State) (intersects : list Object3D) :
  controls_enabled
    (run_events [LockToggle true; MouseDown intersects; MouseUp] s)
  = isDragging (run_events [LockToggle true; MouseDown intersects] s).
Proof.
  unfold run_events. simpl. unfold onMouseUp, onMouseDown. simpl.
  destruct (currentEditIndex s) as [e |]; simpl.
  - destruct intersects as [| obj rest]; simpl.
    + destruct (isDragging s); reflexivity.
    + destruct (annotationIndex (userData_of obj)) as [k |]; simpl.
      * destruct (k =? e)%Z; simpl; [reflexivity |]. destruct (isDragging s); reflexivity.
      * destruct (isDragging s); reflexivity.
  - destruct (isDragging s); reflexivity.
Qed.

(** X14.  A mouse-move changes nothing when no drag is in progress, and
    nothing when the ray has no point on the proxy sphere: off the sphere the
    record stays where it is. *)
Theorem mouse_move_without_effect (s : State) (ray : Ray) :
  isDragging s = false \/
  (Vector3.lengthSq (direction ray) = 1 /\
   forall t, 0 <= t -> Vector3.lengthSq (Ray_at ray t) <> proxy_radius * proxy_radius) ->
  onMouseMove ray s = Done s.
Proof.
  intros [Hd | [Hu Hmiss]]; unfold onMouseMove.
  - rewrite Hd. reflexivity.
  - destruct (isDragging s); simpl; [| reflexivity].
    destruct (draggedAnnotationIndex s) as [i |]; [| reflexivity].
    destruct (intersectObject ray proxy_radius) as [| p rest] eqn:E; [reflexivity |].
    exfalso.
    destruct (intersectObject_first_point ray proxy_radius p rest Hu E)
      as (_ & t & Ht & Hp & Hs & _).
    apply (Hmiss t Ht). rewrite <- Hp. exact Hs.
Qed.

Lemma mouse_move_without_effect_witness :
  onMouseMove ray_away dragging_new = Done dragging_new /\
  onMouseMove ray_from_front initial = Done initial.
Proof.
  split.
  - apply (mouse_move_without_effect dragging_new ray_away). right. split.
    + unfold Vector3.lengthSq, Vector3.dot. simpl. lra.
    + intros t Ht. rewrite lengthSq_Ray_at.
      unfold Vector3.lengthSq, Vector3.dot, proxy_radius, ray_away, camera_at, ring_point,
        cursor_direction, Vector3.sub, Vector3.multiplyScalar. simpl. nra.
  - apply (mouse_move_without_effect initial ray_from_front). left. reflexivity.
Defined.

(** ** The label anchor *)

(** X15.  The anchor of a label lies on the half-line from the centre of
    the scene through the position of its record, at distance 2.5 from the
    centre, for every position other than the centre itself; for a record at
    the centre the anchor is the centre. *)
Theorem labelOffset_on_sphere (p : Vec3) :
  (Vector3.lengthSq p <> 0 ->
   Vector3.lengthSq (labelOffset p) = (5 / 2) * (5 / 2) /\
   exists k, 0 < k /\ labelOffset p = Vector3.multiplyScalar p k) /\
  labelOffset Vector3.zero = Vector3.zero.
Proof.
  split.
  - intros Hp.
    assert (H0 : 0 <= Vector3.lengthSq p).
    { destruct p as [a b c]. unfold Vector3.lengthSq, Vector3.dot. simpl. nra. }
    assert (Hpos : 0 < Vector3.length p) by (apply sqrt_lt_R0; lra).
    assert (Hsq : Vector3.length p * Vector3.length p = Vector3.lengthSq p)
      by (apply sqrt_sqrt; exact H0).
    unfold labelOffset, Vector3.normalize.
    destruct (Req_dec_T (Vector3.length p) 0) as [E | _]; [lra |].
    set (len := Vector3.length p) in *.
    assert (Hinv : len * (1 / len) = 1) by (field; lra).
    split.
    + destruct p as [a b c].
      unfold Vector3.divideScalar, Vector3.multiplyScalar, Vector3.lengthSq, Vector3.dot in *.
      simpl in *.
      clearbody len.
      replace (a * (1 / len) * (5 / 2) * (a * (1 / len) * (5 / 2))
               + b * (1 / len) * (5 / 2) * (b * (1 / len) * (5 / 2))
               + c * (1 / len) * (5 / 2) * (c * (1 / len) * (5 / 2)))
        with ((a * a + b * b + c * c) * ((1 / len) * (1 / len)) * ((5 / 2) * (5 / 2)))
        by ring.
      rewrite <- Hsq.
      replace (len * len * (1 / len * (1 / len)) * (5 / 2 * (5 / 2)))
        with ((len * (1 / len)) * (len * (1 / len)) * ((5 / 2) * (5 / 2))) by ring.
      rewrite Hinv. ring.
    + exists (1 / len * (5 / 2)). split.
      * apply Rmult_lt_0_compat; [| lra]. apply Rdiv_lt_0_compat; lra.
      * destruct p as [a b c].
        unfold Vector3.divideScalar, Vector3.multiplyScalar. simpl. f_equal; ring.
  - unfold labelOffset, Vector3.normalize, Vector3.length.
    replace (Vector3.lengthSq Vector3.zero) with 0
      by (unfold Vector3.lengthSq, Vector3.dot; simpl; ring).
    rewrite sqrt_0. destruct (Req_dec_T 0 0) as [_ | N]; [| contradiction].
    unfold Vector3.divideScalar, Vector3.multiplyScalar, Vector3.zero. simpl.
    f_equal; field.
Qed.

Lemma labelOffset_on_sphere_witness :
  Vector3.lengthSq (labelOffset (Vector3.mk 0 0 (3 / 2))) = (5 / 2) * (5 / 2).
Proof.
  destruct (labelOffset_on_sphere (Vector3.mk 0 0 (3 / 2))) as [H _].
  apply H. unfold Vector3.lengthSq, Vector3.dot. simpl. lra.
Defined.

(** ** The editor *)

Lemma saveEdit_settles (form : Form) (s : State) :
  state_of (saveEdit form (state_of (saveEdit form s))) = state_of (saveEdit form s).
Proof.
  unfold saveEdit.
  destruct (currentEditIndex s) as [i |] eqn:Ei.
  - destruct (js_get (annotations s) i) as [a |] eqn:Ha.
    + reflexivity.
    + simpl. rewrite Ei, Ha. reflexivity.
  - simpl. rewrite Ei. reflexivity.
Qed.

(** X16.  The Save listeners that pile up, one per opening of the editor,
    do no harm: a click that runs any number of them (at least one) leaves
    the state that a single run of [saveEdit] leaves. *)
Theorem clickSave_as_one_listener (more : nat) (form : Form) (s : State) :
  clickSave (S more) form s = state_of (saveEdit form s).
Proof.
  unfold clickSave. induction more as [| more IH]; [reflexivity |].
  change (Nat.iter (S (S more)) (fun st => state_of (saveEdit form st)) s)
    with (state_of (saveEdit form
            (Nat.iter (S more) (fun st => state_of (saveEdit form st)) s))).
  rewrite IH. apply saveEdit_settles.
Qed.

Lemma trimStart_head (l : list ascii) (c : ascii) (rest : list ascii) :
  trimStart_list l = c :: rest -> is_white_space c = false.
Proof.
  induction l as [| d l IH]; simpl; [discriminate |].
  destruct (is_white_space d) eqn:E; [exact IH |].
  intros [= <- _]. exact E.
Qed.

Lemma trimStart_suffix (l : list ascii) :
  exists before, l = before ++ trimStart_list l.
Proof.
  induction l as [| d l [before IH]]; simpl; [exists []; reflexivity |].
  destruct (is_white_space d).
  - exists (d :: before). simpl. f_equal. exact IH.
  - exists []. reflexivity.
Qed.

Lemma trimStart_fixed (l : list ascii) :
  (forall c rest, l = c :: rest -> is_white_space c = false) -> trimStart_list l = l.
Proof.
  destruct l as [| d l]; simpl; [reflexivity |].
  intros H. rewrite (H d l eq_refl). reflexivity.
Qed.

Lemma trim_is_trimmed (text : string) : trimmed (trim text) /\ trim (trim text) = trim text.
Proof.
  unfold trim.
  set (m := trimStart_list (list_ascii_of_string text)).
  set (n := trimStart_list (rev m)).
  assert (Hfirst : forall c rest, rev n = c :: rest -> is_white_space c = false).
  { intros c rest E. destruct (trimStart_suffix (rev m)) as [before Hb]. fold n in Hb.
    assert (Hm : m = rev n ++ rev before).
    { rewrite <- rev_app_distr, <- Hb, rev_involutive. reflexivity. }
    rewrite E in Hm. simpl in Hm. unfold m in Hm. apply (trimStart_head _ _ _ Hm). }
  assert (Hlast : forall c rest, n = c :: rest -> is_white_space c = false).
  { intros c rest. unfold n. apply trimStart_head. }
  split.
  - unfold trimmed. rewrite list_ascii_of_string_of_list_ascii. simpl.
    split; [exact Hfirst |]. rewrite rev_involutive. exact Hlast.
  - rewrite list_ascii_of_string_of_list_ascii.
    rewrite (trimStart_fixed (rev n) Hfirst), rev_involutive.
    rewrite (trimStart_fixed n Hlast). reflexivity.
Qed.

(** X17.  The label that Save stores has no white space at its start or at
    its end, and trimming it again changes nothing; a label field of white
    space only is stored as the empty label. *)
Theorem saved_label_is_trimmed (s : State) (i : Z) (a : Annotation) (form : Form) :
  currentEditIndex s = Some i ->
  js_get (annotations s) i = Some a ->
  exists s' a',
    saveEdit form s = Done s' /\
    js_get (annotations s') i = Some a' /\
    trimmed (label a') /\
    trim (label a') = label a' /\
    (trimStart_list (list_ascii_of_string (edit_label form)) = [] ->
     label a' = EmptyString).
Proof.
  intros He Ha. unfold saveEdit. rewrite He, Ha.
  eexists. eexists. split; [reflexivity |]. split.
  { unfold updateAnnotation. rewrite Ha. simpl.
    unfold js_get in *. destruct (i <? 0)%Z; [discriminate |].
    exact (list_set_nth_same (annotations s) (Z.to_nat i)
             (fun _ => mkAnnotation (position a) (trim (edit_label form)) None
                                    (edit_color form) (edit_shape form)) a Ha). }
  simpl. destruct (trim_is_trimmed (edit_label form)) as [T1 T2].
  split; [exact T1 |]. split; [exact T2 |].
  intros E. unfold trim. rewrite E. reflexivity.
Qed.

Lemma saved_label_is_trimmed_witness :
  exists s' a',
    saveEdit (mkForm "   " "#ff0000" "cube") editing_new = Done s' /\
    js_get (annotations s') 1 = Some a' /\
    label a' = EmptyString.
Proof.
  destruct (saved_label_is_trimmed editing_new 1
              (mkAnnotation 1%nat "Annotation 2"
                 (Some "Add your annotation description here.") default_color "sphere")
              (mkForm "   " "#ff0000" "cube") eq_refl eq_refl)
    as (s' & a' & H1 & H2 & _ & _ & H5).
  exists s', a'. split; [exact H1 |]. split; [exact H2 |]. apply H5. reflexivity.
Defined.



(** ** Camera animation *)

Lemma eased_in_unit (p : R) : 0 <= p <= 1 -> 0 <= eased p <= 1.
Proof.
  intros H. unfold eased. destruct (Rlt_dec p (1 / 2)); nra.
Qed.

Lemma eased_mirror (p : R) : eased (1 - p) = 1 - eased p.
Proof.
  unfold eased.
  destruct (Rlt_dec (1 - p) (1 / 2)); destruct (Rlt_dec p (1 / 2)); try lra.
  assert (p = 1 / 2) by lra. subst p. lra.
Qed.

Lemma progress_in_unit (a : CameraAnimation) (now : Z) :
  (startTime a <= now)%Z -> 0 <= progress_at a now <= 1.
Proof.
  intros H. unfold progress_at, duration.
  assert (H0 : 0 <= IZR (now - startTime a)) by (apply IZR_le; lia).
  split.
  - apply Rmin_glb; lra.
  - apply Rmin_r.
Qed.

(** X19.  The factor that a run of the closure passes to its two
    [lerpVectors] calls never leaves the unit interval from the start time on,
    and the second half of the easing mirrors the first: what the closure
    writes to the camera position and to the look-at target lies between the
    start value and the destination, with no overshoot.  (What
    [controls.update()] then makes of the camera is not part of this.) *)
Theorem eased_progress_in_unit (a : CameraAnimation) (now : Z) :
  (startTime a <= now)%Z ->
  0 <= eased (progress_at a now) <= 1 /\
  (forall p, eased (1 - p) = 1 - eased p).
Proof.
  intros H. split; [| exact eased_mirror].
  apply eased_in_unit, progress_in_unit, H.
Qed.

Lemma eased_progress_in_unit_witness :
  0 <= eased (progress_at (mkAnimation (Vector3.mk 5 3 5) Vector3.zero
                                       (Vector3.mk 2 2 3) (Vector3.mk 0 0 1) 100) 600)
  <= 1.
Proof.
  destruct (eased_progress_in_unit
              (mkAnimation (Vector3.mk 5 3 5) Vector3.zero
                           (Vector3.mk 2 2 3) (Vector3.mk 0 0 1) 100) 600) as [H _].
  - simpl. lia.
  - exact H.
Defined.

Lemma asks_again_while_running (a : CameraAnimation) (now : Z) :
  (if Rlt_dec (progress_at a now) 1 then true else false)
  = (now <? startTime a + 1000)%Z.
Proof.
  unfold progress_at, duration.
  destruct (Z.ltb_spec now (startTime a + 1000)) as [Hlt | Hge].
  - assert (H : IZR (now - startTime a) < 1000) by (apply IZR_lt; lia).
    destruct (Rlt_dec _ 1) as [_ | N]; [reflexivity |].
    exfalso. apply N. eapply Rle_lt_trans; [apply Rmin_l | lra].
  - assert (H : 1000 <= IZR (now - startTime a)) by (apply IZR_le; lia).
    destruct (Rlt_dec _ 1) as [L | _]; [| reflexivity].
    exfalso. rewrite Rmin_right in L by lra. lra.
Qed.

Lemma run_frame_kept (now : Z) (pending : list CameraAnimation) (s : State) :
  snd (run_frame now pending s)
  = filter (fun a => (now <? startTime a + 1000)%Z) pending.
Proof.
  revert s. induction pending as [| a rest IH]; intros s; simpl; [reflexivity |].
  specialize (IH (set_camera
    (Vector3.lerpVectors (startPosition a) (anim_position a) (eased (progress_at a now)))
    (Vector3.lerpVectors (startTarget a) (anim_lookAt a) (eased (progress_at a now))) s)).
  destruct (run_frame now rest _) as [s2 kept]. simpl in *.
  rewrite asks_again_while_running, IH. reflexivity.
Qed.

Lemma run_frame_last (now : Z) (before : list CameraAnimation) (a : CameraAnimation)
      (s : State) :
  camera_position (fst (run_frame now (before ++ [a]) s))
  = Vector3.lerpVectors (startPosition a) (anim_position a) (eased (progress_at a now)) /\
  controls_target (fst (run_frame now (before ++ [a]) s))
  = Vector3.lerpVectors (startTarget a) (anim_lookAt a) (eased (progress_at a now)).
Proof.
  revert s. induction before as [| b before IH]; intros s; simpl.
  - split; reflexivity.
  - specialize (IH (set_camera
      (Vector3.lerpVectors (startPosition b) (anim_position b) (eased (progress_at b now)))
      (Vector3.lerpVectors (startTarget b) (anim_lookAt b) (eased (progress_at b now))) s)).
    destruct (run_frame now (before ++ [a]) _) as [s2 kept]. exact IH.
Qed.

(** X20.  A display frame keeps exactly the camera animations that are
    less than 1000 ms old, in their order: each animation ends by itself, the
    number of scheduled animations never grows in a frame, and a frame at
    least 1000 ms after the last start leaves none. *)
Theorem frame_keeps_running_animations (now : Z) (s : State) :
  animations (onAnimationFrame now s)
  = filter (fun a => (now <? startTime a + 1000)%Z) (animations s) /\
  (List.length (animations (onAnimationFrame now s)) <= List.length (animations s))%nat /\
  (Forall (fun a => (startTime a + 1000 <= now)%Z) (animations s) ->
   animations (onAnimationFrame now s) = []).
Proof.
  assert (E : animations (onAnimationFrame now s)
              = filter (fun a => (now <? startTime a + 1000)%Z) (animations s)).
  { unfold onAnimationFrame. pose proof (run_frame_kept now (animations s) s) as K.
    destruct (run_frame now (animations s) s) as [s1 kept]. exact K. }
  rewrite E. split; [reflexivity |]. split; [apply filter_length_le |].
  intros H. apply filter_drops_all. eapply Forall_impl; [| exact H].
  simpl. intros a Ha. apply Z.ltb_ge. exact Ha.
Qed.

Lemma frame_keeps_running_animations_witness :
  animations
    (onAnimationFrame 2000
       (set_animations
          [mkAnimation (Vector3.mk 5 3 5) Vector3.zero (Vector3.mk 2 2 3)
                       (Vector3.mk 0 0 1) 500;
           mkAnimation (Vector3.mk 5 3 5) Vector3.zero (Vector3.mk 1 1 1)
                       (Vector3.mk 0 1 0) 900] initial)) = [].
Proof.
  destruct (frame_keeps_running_animations 2000
              (set_animations
                 [mkAnimation (Vector3.mk 5 3 5) Vector3.zero (Vector3.mk 2 2 3)
                              (Vector3.mk 0 0 1) 500;
                  mkAnimation (Vector3.mk 5 3 5) Vector3.zero (Vector3.mk 1 1 1)
                              (Vector3.mk 0 1 0) 900] initial))
    as (_ & _ & F).
  apply F. simpl. repeat constructor; simpl; lia.
Defined.

Lemma frame_last_animation_wins_aux (now : Z) (s : State)
      (before : list CameraAnimation) (a : CameraAnimation) :
  animations s = before ++ [a] ->
  camera_position (onAnimationFrame now s)
  = Vector3.lerpVectors (startPosition a) (anim_position a) (eased (progress_at a now)) /\
  controls_target (onAnimationFrame now s)
  = Vector3.lerpVectors (startTarget a) (anim_lookAt a) (eased (progress_at a now)).
Proof.
  intros H. unfold onAnimationFrame. rewrite H.
  pose proof (run_frame_last now before a s) as K.
  destruct (run_frame now (before ++ [a]) s) as [s1 kept]. exact K.
Qed.

(** X22.  A click that focuses an existing record, seen through to its
    end: when the first run of [animate] reads the start time, the camera and
    the look-at target do not move at the click; the first display frame at
    least 1000 ms later puts the look-at target on the position of the record
    and the camera at that position plus (2, 1.5, 2), and the animation is no
    longer scheduled, whatever animations were in flight at the click. *)
Theorem focus_arrives (s : State) (i : Z) (a : Annotation) (t : Z) (late : nat) :
  js_get (annotations s) i = Some a ->
  camera_position (focusOnAnnotation i t t s) = camera_position s /\
  controls_target (focusOnAnnotation i t t s) = controls_target s /\
  camera_position (onAnimationFrame (t + 1000 + Z.of_nat late) (focusOnAnnotation i t t s))
  = Vector3.add (heap s (position a)) focus_offset /\
  controls_target (onAnimationFrame (t + 1000 + Z.of_nat late) (focusOnAnnotation i t t s))
  = heap s (position a) /\
  ~ In (mkAnimation (camera_position s) (controls_target s)
                    (Vector3.add (heap s (position a)) focus_offset)
                    (heap s (position a)) t)
       (animations (onAnimationFrame (t + 1000 + Z.of_nat late)
                                     (focusOnAnnotation i t t s))).
Proof.
  intros Ha. pose proof (js_get_in_range _ _ _ Ha) as Hr.
  set (anim := mkAnimation (camera_position s) (controls_target s)
                           (Vector3.add (heap s (position a)) focus_offset)
                           (heap s (position a)) t).
  assert (E : focusOnAnnotation i t t s
              = set_animations (animations s ++ [anim]) (set_camera (camera_position s)
                                                           (controls_target s) s)).
  { unfold focusOnAnnotation.
    destruct (Z.leb_spec 0 i); [| lia].
    destruct (Z.ltb_spec i (Z.of_nat (List.length (annotations s)))); [| lia].
    simpl. rewrite Ha. unfold animateCameraTo, animate. fold anim.
    change (progress_at anim t) with (progress_at anim (startTime anim)).
    rewrite (progress_at_start anim), eased_0, !lerpVectors_0.
    destruct (Rlt_dec 0 1); [reflexivity | lra]. }
  rewrite E. split; [reflexivity |]. split; [reflexivity |].
  destruct (frame_last_animation_wins_aux (t + 1000 + Z.of_nat late)
              (set_animations (animations s ++ [anim])
                 (set_camera (camera_position s) (controls_target s) s))
              (animations s) anim eq_refl) as [Hc Ht].
  rewrite Hc, Ht.
  change (t + 1000 + Z.of_nat late)%Z with (startTime anim + 1000 + Z.of_nat late)%Z.
  rewrite (progress_at_end anim late), eased_1, !lerpVectors_1.
  split; [reflexivity |]. split; [reflexivity |].
  unfold onAnimationFrame.
  pose proof (run_frame_kept (startTime anim + 1000 + Z.of_nat late)
                (animations s ++ [anim])
                (set_animations (animations s ++ [anim])
                   (set_camera (camera_position s) (controls_target s) s))) as K.
  simpl in K |- *.
  destruct (run_frame _ _ _) as [s1 kept]. simpl in *. rewrite K.
  intros Hin. apply filter_In in Hin as [_ Hlt]. simpl in Hlt.
  apply Z.ltb_lt in Hlt. lia.
Qed.

Lemma focus_arrives_witness :
  camera_position (onAnimationFrame 1500 (focusOnAnnotation 0 500 500 initial))
  = Vector3.add (Vector3.mk (9 / 10) (5 / 100) (2 / 10)) focus_offset /\
  controls_target (onAnimationFrame 1500 (focusOnAnnotation 0 500 500 initial))
  = Vector3.mk (9 / 10) (5 / 100) (2 / 10).
Proof.
  destruct (focus_arrives initial 0 initial_annotation 500 0 eq_refl)
    as (_ & _ & Hc & Ht & _).
  split; [exact Hc | exact Ht].
Defined.

(** ** The list in the side panel *)

Lemma parse_decimal_digits (d : Decimal.uint) (acc : nat) :
  parse_digits 10 (Z.of_nat acc) true (list_ascii_of_string (NilEmpty.string_of_uint d))
  = Some (Z.of_nat (Nat.of_uint_acc d acc)).
Proof.
  revert acc. induction d; intros acc; simpl; try reflexivity.
  all: unfold digit_value; simpl.
  all: rewrite <- IHd; f_equal; rewrite Nat.tail_mul_spec; lia.
Qed.

Lemma parseInt_decimal (d : Decimal.uint) :
  parseInt (NilZero.string_of_uint d) = Some (Z.of_nat (Nat.of_uint d)).
Proof.
  unfold Nat.of_uint.
  destruct d as [| d | d | d | d | d | d | d | d | d | d]; try reflexivity.
  1: destruct d as [| d | d | d | d | d | d | d | d | d | d]; try reflexivity.
  all: unfold parseInt, NilZero.string_of_uint; simpl.
  all: unfold digit_value; simpl.
  all: match goal with
       | |- option_map _ (parse_digits 10 ?z true _)
            = Some (Z.of_nat (Nat.of_uint_acc _ ?n)) =>
           change z with (Z.of_nat n); rewrite parse_decimal_digits
       end.
  all: unfold option_map; f_equal; apply Z.mul_1_l.
Qed.

(** [parseInt] reads back the decimal text of an index. *)
Lemma parseInt_string_of_nat (n : nat) : parseInt (string_of_nat n) = Some (Z.of_nat n).
Proof.
  unfold string_of_nat. rewrite parseInt_decimal, Unsigned.of_to. reflexivity.
Qed.

Lemma string_of_nat_not_empty (n : nat) : string_of_nat n <> EmptyString.
Proof.
  unfold string_of_nat, NilZero.string_of_uint.
  destruct (Nat.to_uint n); simpl; discriminate.
Qed.

(** X23.  The click listener of the list goes by the [data-index]
    attribute of the item: with the decimal numeral of [k] there, which is what
    the template of [updateAnnotationList] writes for record [k], the click
    focuses record [k]; a click that finds no item, no attribute or an empty
    one focuses record 0; and an attribute that is no number changes
    nothing. *)
Theorem list_click_follows_data_index (s : State) (k : nat) (startTime now : Z) :
  onListClick (Some (string_of_nat k)) startTime now s
  = focusOnAnnotation (Z.of_nat k) startTime now s /\
  onListClick None startTime now s = focusOnAnnotation 0 startTime now s /\
  onListClick (Some EmptyString) startTime now s = focusOnAnnotation 0 startTime now s /\
  onListClick (Some "x") startTime now s = s.
Proof.
  split; [| repeat split; reflexivity].
  unfold onListClick.
  destruct (string_of_nat k) eqn:E; [exfalso; exact (string_of_nat_not_empty k E) |].
  rewrite <- E, parseInt_string_of_nat. reflexivity.
Qed.

(** ** The solid-colour toggle *)

(** X24.  The solid-colour box does not give the gold back: after any
    changes of the box, at least one, the mesh has the grey of the box when
    the last change checked it and the brown 0x8b7355 when it unchecked it,
    never the gold 0xFFD700 it was loaded with; and while there is no mesh
    the changes do nothing. *)
Theorem solid_color_never_restores_gold (before : list bool) (final : bool) :
  fold_left onSolidColorChange (before ++ [final]) (Some gold)
  = Some (if final then solid_grey else solid_brown) /\
  fold_left onSolidColorChange (before ++ [final]) (Some gold) <> Some gold /\
  fold_left onSolidColorChange (before ++ [final]) None = None.
Proof.
  assert (K : forall l c, exists c', fold_left onSolidColorChange l (Some c) = Some c').
  { induction l as [| x l IH]; intros c; simpl; [eexists; reflexivity | apply IH]. }
  assert (N : forall l, fold_left onSolidColorChange l None = None).
  { induction l as [| x l IH]; simpl; [reflexivity | exact IH]. }
  rewrite !fold_left_app. simpl. rewrite N.
  destruct (K before gold) as [c' ->]. simpl.
  split; [reflexivity |]. split; [| reflexivity].
  destruct final; discriminate.
Qed.
